(** * A Mother's Touch daycare: attendance engine of [src/App.tsx]

    A shallow embedding of the attendance logic of the React component
    [App] and the properties of its check-in / check-out transitions,
    note merging, roster editing and report aggregation.

    Modelling conventions.
    - A JavaScript [number] that holds a timestamp, a minute total or a
      counter is an integer of [Z].  [Math.round (diff / 60000)] is
      computed over the rationals; for integers in the range of epoch
      timestamps the double-precision quotient rounds to the same integer.
    - A JavaScript string is the list of its UTF-16 code units.
    - A JavaScript object used as a record ([Record<string, T>]) is a
      finite map [gmap]; an optional field is an [option].
    - React state is passed explicitly: every handler is a function from
      the component state to the next component state.  [Date.now ()] and
      [Math.random ()] are arguments of the handlers that read them. *)

From Stdlib Require Import ZArith QArith Qround List Sorted Lia Ascii String.
From Stdlib Require Import DecimalString DecimalZ.
From stdpp Require Import gmap list fin_maps.

Local Open Scope Z_scope.

(** ** JavaScript primitives *)

Definition jsstring : Type := list N.

(** Code units of an ASCII literal, to write examples. *)
Definition js (s : string) : jsstring :=
  List.map N_of_ascii (list_ascii_of_string s).

(** [WhiteSpace] and [LineTerminator] code points of ECMAScript, the ones
    [String.prototype.trim] strips. *)
Definition isWhiteSpace (c : N) : bool :=
  ((9 <=? c) && (c <=? 13))%N
  || (c =? 32)%N || (c =? 160)%N || (c =? 5760)%N
  || ((8192 <=? c) && (c <=? 8202))%N
  || (c =? 8232)%N || (c =? 8233)%N || (c =? 8239)%N
  || (c =? 8287)%N || (c =? 12288)%N || (c =? 65279)%N.

Fixpoint trimStart (s : jsstring) : jsstring :=
  match s with
  | [] => []
  | c :: s' => if isWhiteSpace c then trimStart s' else s
  end.

Definition trimEnd (s : jsstring) : jsstring := rev (trimStart (rev s)).

Definition trim (s : jsstring) : jsstring := trimEnd (trimStart s).

Fixpoint startsWith (s t : jsstring) {struct t} : bool :=
  match t, s with
  | [], _ => true
  | _ :: _, [] => false
  | b :: t', a :: s' => (a =? b)%N && startsWith s' t'
  end.

(** [s.includes (t)]: [t] occurs in [s] as a contiguous run. *)
Fixpoint includes (s t : jsstring) : bool :=
  startsWith s t ||
  match s with
  | [] => false
  | _ :: s' => includes s' t
  end.

(** [!s] on a string: only the empty string is falsy. *)
Definition emptyStr (s : jsstring) : bool :=
  match s with [] => true | _ :: _ => false end.

(** [s || ""] on a string. *)
Definition orEmpty (s : jsstring) : jsstring :=
  if emptyStr s then [] else s.

(** [!n] on an optional number: [undefined] and [0] are falsy. *)
Definition falsyNum (n : option Z) : bool :=
  match n with
  | None => true
  | Some z => z =? 0
  end.

(** [Math.round]: nearest integer, halves towards plus infinity. *)
Definition Math_round (q : Q) : Z := Qfloor (q + (1 # 2)).

(** A lower-casing with the context rule of the final sigma, for ASCII
    and Greek letters: the instance the examples run on.  A capital sigma
    becomes the final form when a cased letter precedes it and none
    follows it, case-ignorable characters skipped on both sides. *)
Definition isCasedLetter (c : N) : bool :=
  (((65 <=? c) && (c <=? 90)) || ((97 <=? c) && (c <=? 122))
   || ((913 <=? c) && (c <=? 937)) || ((945 <=? c) && (c <=? 969)))%N.

Definition isCaseIgnorable (c : N) : bool :=
  ((c =? 39) || (c =? 46) || (c =? 58) || (c =? 183) || (c =? 8217)
   || ((768 <=? c) && (c <=? 879)))%N.

Fixpoint beforeCased (s : jsstring) : bool :=
  match s with
  | [] => false
  | c :: s' => if isCaseIgnorable c then beforeCased s' else isCasedLetter c
  end.

Definition lowerLetter (c : N) : N :=
  if (((65 <=? c) && (c <=? 90)) || ((913 <=? c) && (c <=? 937)))%N
  then (c + 32)%N else c.

Fixpoint lowerFrom (afterCased : bool) (s : jsstring) : jsstring :=
  match s with
  | [] => []
  | c :: s' =>
      (if (c =? 931)%N && afterCased && negb (beforeCased s')
       then 962%N else lowerLetter c)
      :: lowerFrom (if isCaseIgnorable c then afterCased else isCasedLetter c) s'
  end.

Definition sigmaToLowerCase (s : jsstring) : jsstring := lowerFrom false s.

(** [Array.prototype.sort (cmp)]: the sort is stable, so for a comparator
    that is a total preorder its result is the one computed by a stable
    insertion.  [x] precedes [y] when [cmp x y <= 0] and [x] came first. *)
Fixpoint sortInsert {A : Type} (cmp : A -> A -> Z) (x : A) (l : list A) : list A :=
  match l with
  | [] => [x]
  | y :: l' => if cmp x y <=? 0 then x :: l else y :: sortInsert cmp x l'
  end.

Definition Array_sort {A : Type} (cmp : A -> A -> Z) (l : list A) : list A :=
  foldr (sortInsert cmp) [] l.

(** Default comparator of [sort ()]: strings by code units. *)
Fixpoint defaultCompare (s t : jsstring) : Z :=
  match s, t with
  | [], [] => 0
  | [], _ :: _ => -1
  | _ :: _, [] => 1
  | a :: s', b :: t' =>
      if (a <? b)%N then -1 else if (b <? a)%N then 1 else defaultCompare s' t'
  end.

(** [Object.keys (m)] *)
Definition Object_keys {V : Type} (m : gmap jsstring V) : list jsstring :=
  (map_to_list m).*1.

(** ** Data model *)

Module Child.
Record t : Type := mk {
  id : jsstring;
  firstName : jsstring;
  lastName : jsstring;
  isActive : bool;
  guardian : jsstring;
  allergies : option jsstring
}.
End Child.

Inductive Status : Type := PRESENT | ABSENT.

Definition isPRESENT (s : Status) : bool :=
  match s with PRESENT => true | ABSENT => false end.

Module Attendance.
Record t : Type := mk {
  status : Status;
  checkInMs : option Z;
  checkOutMs : option Z;
  totalMinutes : option Z;
  checkInNote : option jsstring;
  checkOutNote : option jsstring
}.
End Attendance.

(** ** Pure helpers of the source *)

Definition minutesBetween (startMs endMs : option Z) : option Z :=
  if falsyNum startMs || falsyNum endMs then None
  else
    match startMs, endMs with
    | Some s, Some e =>
        let diff := e - s in
        if diff <? 0 then None
        else Some (Math_round (inject_Z diff / inject_Z 60000))
    | _, _ => None
    end.

Definition noteSeparator : jsstring := [32%N; 8226%N; 32%N].

Section Notes.
(** [String.prototype.toLowerCase] follows the Unicode case tables and
    their context rule for the final sigma, over the code points of the
    string: it is no letter-by-letter map.  The function is a parameter;
    what a proof needs of it is a hypothesis of that proof. *)
Variable toLowerCase : jsstring -> jsstring.

(** [current ?? ""] and [add ?? ""] are the arguments themselves: both are
    strings at every call. *)
Definition appendNote (current add : jsstring) : jsstring :=
  let c := trim current in
  let a := trim add in
  if emptyStr a then c
  else if emptyStr c then a
  else
    let lc := toLowerCase c in
    let la := toLowerCase a in
    if includes lc la then c
    else c ++ noteSeparator ++ a.
End Notes.

(** ** Component state *)

Inductive ChildMode : Type := ADD | EDIT.

Module ChildForm.
Record t : Type := mk {
  firstName : jsstring;
  lastName : jsstring;
  guardian : jsstring;
  allergies : jsstring;
  isActive : bool
}.
End ChildForm.

(** The state of [App] that the roster and attendance handlers read and
    write.  [dateKey] is computed once when the component mounts;
    [stored] is the value under [STORAGE_KEY] in [localStorage]. *)
Record App : Type := mkApp {
  dateKey : jsstring;
  kids : list Child.t;
  attendance : gmap jsstring (gmap jsstring Attendance.t);
  stored : option (list Child.t * gmap jsstring (gmap jsstring Attendance.t));
  childOpen : bool;
  childMode : ChildMode;
  editId : option jsstring;
  childForm : ChildForm.t
}.

Definition saveState (st : App) (kids' : list Child.t)
    (attendance' : gmap jsstring (gmap jsstring Attendance.t)) : App :=
  mkApp (dateKey st) (kids st) (attendance st) (Some (kids', attendance'))
        (childOpen st) (childMode st) (editId st) (childForm st).

Definition setKids (st : App) (kids' : list Child.t) : App :=
  mkApp (dateKey st) kids' (attendance st) (stored st)
        (childOpen st) (childMode st) (editId st) (childForm st).

Definition setAttendance (st : App)
    (attendance' : gmap jsstring (gmap jsstring Attendance.t)) : App :=
  mkApp (dateKey st) (kids st) attendance' (stored st)
        (childOpen st) (childMode st) (editId st) (childForm st).

Definition setChildOpen (st : App) (b : bool) : App :=
  mkApp (dateKey st) (kids st) (attendance st) (stored st)
        b (childMode st) (editId st) (childForm st).

Definition commit (st : App) (nextKids : list Child.t)
    (nextAttendance : gmap jsstring (gmap jsstring Attendance.t)) : App :=
  saveState (setAttendance (setKids st nextKids) nextAttendance)
            nextKids nextAttendance.

(** [attendance[dateKey] ?? {}] *)
Definition dayMap (st : App) : gmap jsstring Attendance.t :=
  default ∅ (attendance st !! dateKey st).

(** [o || ""] on an optional string. *)
Definition orEmptyOpt (o : option jsstring) : jsstring :=
  match o with
  | Some s => orEmpty s
  | None => []
  end.

(** ** Check-in and check-out *)

Definition doCheckIn (now : Z) (st : App) (childId note : jsstring) : App :=
  let next := attendance st in
  let d := default ∅ (next !! dateKey st) in
  let d := <[childId :=
              Attendance.mk PRESENT (Some now) None None
                            (Some (orEmpty note)) (Some [])]> d in
  let next := <[dateKey st := d]> next in
  commit st (kids st) next.

Definition doCheckOut (now : Z) (st : App) (childId note : jsstring) : App :=
  let existing := dayMap st !! childId in
  let totalMinutes := minutesBetween (existing ≫= Attendance.checkInMs) (Some now) in
  let next := attendance st in
  let d := default ∅ (next !! dateKey st) in
  let d := <[childId :=
              Attendance.mk ABSENT
                            (existing ≫= Attendance.checkInMs)
                            (Some now)
                            (Some (default 0 totalMinutes))
                            (Some (orEmptyOpt (existing ≫= Attendance.checkInNote)))
                            (Some (orEmpty note))]> d in
  let next := <[dateKey st := d]> next in
  commit st (kids st) next.

(** ** Roster editing *)

(** [rnd] stands for [Math.random ().toString (16).slice (2)]. *)
Definition saveChild (rnd : jsstring) (st : App) : App :=
  let f := trim (ChildForm.firstName (childForm st)) in
  let l := trim (ChildForm.lastName (childForm st)) in
  let g := trim (ChildForm.guardian (childForm st)) in
  if emptyStr f || emptyStr l || emptyStr g then st
  else
    let st' :=
      match childMode st with
      | ADD =>
          let id := js "k_" ++ rnd in
          let nextKids :=
            kids st ++
              [Child.mk id f l (ChildForm.isActive (childForm st)) g
                        (Some (trim (ChildForm.allergies (childForm st))))] in
          commit st nextKids (attendance st)
      | EDIT =>
          match editId st with
          | Some e =>
              if emptyStr e then st
              else
                let nextKids :=
                  List.map (fun k =>
                    if decide (Child.id k = e)
                    then Child.mk (Child.id k) f l
                                  (ChildForm.isActive (childForm st)) g
                                  (Some (trim (ChildForm.allergies (childForm st))))
                    else k) (kids st) in
                commit st nextKids (attendance st)
          | None => st
          end
      end in
    setChildOpen st' false.

(** The Archive / Restore button of the roster row of the child [kid]. *)
Definition toggleActive (st : App) (kid : jsstring) : App :=
  let nextKids :=
    List.map (fun x =>
      if decide (Child.id x = kid)
      then Child.mk (Child.id x) (Child.firstName x) (Child.lastName x)
                    (negb (Child.isActive x)) (Child.guardian x)
                    (Child.allergies x)
      else x) (kids st) in
  commit st nextKids (attendance st).

(** ** Report aggregation *)

Module Totals.
Record t : Type := mk { days : Z; minutes : Z }.
End Totals.

Module Row.
Record t : Type := mk {
  id : jsstring;
  name : jsstring;
  days : Z;
  minutes : Z;
  active : bool
}.
End Row.

(** [typeof a.totalMinutes === "number" ? a.totalMinutes : 0] *)
Definition minsOf (a : Attendance.t) : Z :=
  match Attendance.totalMinutes a with
  | Some n => n
  | None => 0
  end.

(** [a.status === "PRESENT" || !!a.checkInMs || mins > 0] *)
Definition countsAsPresent (a : Attendance.t) : bool :=
  isPRESENT (Attendance.status a)
  || negb (falsyNum (Attendance.checkInMs a))
  || (0 <? minsOf a).

(** The two updates of [cur] in the inner loop. *)
Definition addRecord (cur : Totals.t) (a : Attendance.t) : Totals.t :=
  let minutes' := Totals.minutes cur + minsOf a in
  let days' := if countsAsPresent a then Totals.days cur + 1 else Totals.days cur in
  Totals.mk days' minutes'.

Definition noTotals : Totals.t := Totals.mk 0 0.

(** Body of the inner loop.  The loop visits the keys of [dm] and reads
    [a = dm[childId]] at each: it visits the entries of [dm]. *)
Definition tally (totals : gmap jsstring Totals.t)
    (entry : jsstring * Attendance.t) : gmap jsstring Totals.t :=
  let childId := entry.1 in
  let a := entry.2 in
  let cur := default noTotals (totals !! childId) in
  <[childId := addRecord cur a]> totals.

(** Body of the outer loop, for the day [dKey]. *)
Definition tallyDay (attendance : gmap jsstring (gmap jsstring Attendance.t))
    (totals : gmap jsstring Totals.t) (dKey : jsstring) : gmap jsstring Totals.t :=
  let dm := default ∅ (attendance !! dKey) in
  foldl tally totals (map_to_list dm).

Definition totalsOf (attendance : gmap jsstring (gmap jsstring Attendance.t))
    : gmap jsstring Totals.t :=
  let allDays := Array_sort defaultCompare (Object_keys attendance) in
  foldl (tallyDay attendance) ∅ allDays.

Definition rowOf (totals : gmap jsstring Totals.t) (k : Child.t) : Row.t :=
  let t := default noTotals (totals !! Child.id k) in
  Row.mk (Child.id k)
         (Child.firstName k ++ [32%N] ++ Child.lastName k)
         (Totals.days t) (Totals.minutes t) (Child.isActive k).

Definition byMinutesDesc (a b : Row.t) : Z := Row.minutes b - Row.minutes a.

Definition reportRows (kids : list Child.t)
    (attendance : gmap jsstring (gmap jsstring Attendance.t)) : list Row.t :=
  let totals := totalsOf attendance in
  Array_sort byMinutesDesc (List.map (rowOf totals) kids).

(** ** Formatting *)

(** [String (n)] for an integer: its decimal digits, after a minus sign when
    it is negative. *)
Definition Number_toString (n : Z) : jsstring :=
  js (NilZero.string_of_int (Z.to_int n)).

(** [s.padStart (targetLength, fill)] for a pad string of one code unit. *)
Definition padStart (targetLength : nat) (fill : N) (s : jsstring) : jsstring :=
  replicate (targetLength - length s) fill ++ s.

(** The local calendar fields of a [Date] that [todayKey] reads. *)
Module LocalDate.
Record t : Type := mk {
  getFullYear : Z;
  getMonth : Z;
  getDate : Z
}.
End LocalDate.

Definition todayKey (d : LocalDate.t) : jsstring :=
  let yyyy := LocalDate.getFullYear d in
  let mm := padStart 2 48 (Number_toString (LocalDate.getMonth d + 1)) in
  let dd := padStart 2 48 (Number_toString (LocalDate.getDate d)) in
  Number_toString yyyy ++ [45%N] ++ mm ++ [45%N] ++ dd.

(** [Math.floor (mins / 60)] is the floor division of [Z]; [mins % 60] takes
    the sign of [mins], as [Z.rem] does. *)
Definition fmtDuration (mins : option Z) : jsstring :=
  match mins with
  | None => [8212%N]
  | Some mins =>
      let h := mins / 60 in
      let m := Z.rem mins 60 in
      if 0 <? h
      then Number_toString h ++ [104%N; 32%N] ++ Number_toString m ++ [109%N]
      else Number_toString m ++ [109%N]
  end.

(** ** The default roster and the mounting of the component *)

Definition hannah : Child.t :=
  Child.mk (js "k1") (js "Hannah") (js "C.") true (js "Andrea") (Some []).

Definition morgan : Child.t :=
  Child.mk (js "k2") (js "Morgan") (js "C.") true (js "Andrea") (Some (js "Peanuts")).

(** The state of [App] when it mounts on the day [dKey], [seeded] being
    what [loadState] returned.  A stored snapshot is taken to be read back
    as it was written: [JSON.parse (JSON.stringify (x))] is [x] for the
    strings, integers, booleans and optional fields of a snapshot.  The
    default roster is [hannah] and [morgan]. *)
Definition mount (dKey : jsstring)
    (seeded : option (list Child.t * gmap jsstring (gmap jsstring Attendance.t)))
    : App :=
  mkApp dKey
        (match seeded with Some s => s.1 | None => [hannah; morgan] end)
        (match seeded with Some s => s.2 | None => {[ dKey := ∅ ]} end)
        seeded false ADD None (ChildForm.mk [] [] [] [] true).

(** ** Handlers of the child dialog *)

Definition openAddChild (st : App) : App :=
  mkApp (dateKey st) (kids st) (attendance st) (stored st)
        true ADD None (ChildForm.mk [] [] [] [] true).

Definition openEditChild (st : App) (k : Child.t) : App :=
  mkApp (dateKey st) (kids st) (attendance st) (stored st)
        true EDIT (Some (Child.id k))
        (ChildForm.mk (Child.firstName k) (Child.lastName k) (Child.guardian k)
                      (default [] (Child.allergies k)) (Child.isActive k)).

(** [onChange] of the inputs of the dialog. *)
Definition setChildForm (st : App) (f : ChildForm.t) : App :=
  mkApp (dateKey st) (kids st) (attendance st) (stored st)
        (childOpen st) (childMode st) (editId st) f.

(** ** Events of the component *)

(** The Reset demo data button: [localStorage.removeItem (STORAGE_KEY)],
    then a reload of the page, which mounts the component again with
    nothing stored, on the day [dKey] of that instant. *)
Definition resetDemo (dKey : jsstring) : App := mount dKey None.

(** The clicks that reach the roster, the history, the stored snapshot or
    the child dialog.  A confirmed note reaches [doCheckIn] or
    [doCheckOut] with the text of the note and the clock of that instant. *)
Inductive Event : Type :=
  | EvCheckIn (now : Z) (childId note : jsstring)
  | EvCheckOut (now : Z) (childId note : jsstring)
  | EvOpenAddChild
  | EvOpenEditChild (k : Child.t)
  | EvChildForm (f : ChildForm.t)
  | EvCancelChild
  | EvSaveChild (rnd : jsstring)
  | EvToggleActive (kid : jsstring)
  | EvResetDemo (dKey : jsstring).

Definition handle (st : App) (e : Event) : App :=
  match e with
  | EvCheckIn now childId note => doCheckIn now st childId note
  | EvCheckOut now childId note => doCheckOut now st childId note
  | EvOpenAddChild => openAddChild st
  | EvOpenEditChild k => openEditChild st k
  | EvChildForm f => setChildForm st f
  | EvCancelChild => setChildOpen st false
  | EvSaveChild rnd => saveChild rnd st
  | EvToggleActive kid => toggleActive st kid
  | EvResetDemo dKey => resetDemo dKey
  end.

Definition run (st : App) (es : list Event) : App := foldl handle st es.

(** The events other than Reset demo data. *)
Definition notReset (e : Event) : Prop :=
  match e with
  | EvResetDemo _ => False
  | _ => True
  end.

(** ** The note dialog and the rows of the Today tab *)

Inductive NoteType : Type := CHECK_IN | CHECK_OUT.

Module NoteModal.
Record t : Type := mk {
  noteOpen : bool;
  noteText : jsstring;
  pending : option (jsstring * NoteType)
}.
End NoteModal.

Definition openNote (childId : jsstring) (type : NoteType) : NoteModal.t :=
  NoteModal.mk true [] (Some (childId, type)).

Definition setNoteText (m : NoteModal.t) (text : jsstring) : NoteModal.t :=
  NoteModal.mk (NoteModal.noteOpen m) text (NoteModal.pending m).

(** A quick-note button: [setNoteText (n => appendNote (n, q))]. *)
Definition tapQuickNote (toLowerCase : jsstring -> jsstring) (m : NoteModal.t)
    (q : jsstring) : NoteModal.t :=
  setNoteText m (appendNote toLowerCase (NoteModal.noteText m) q).

(** [if (type === "CHECK_IN") doCheckIn (...) else doCheckOut (...)] *)
Definition applyNote (type : NoteType) (now : Z) (st : App)
    (childId note : jsstring) : App :=
  match type with
  | CHECK_IN => doCheckIn now st childId note
  | CHECK_OUT => doCheckOut now st childId note
  end.

Definition confirmNote (now : Z) (st : App) (m : NoteModal.t)
    : App * NoteModal.t :=
  match NoteModal.pending m with
  | None => (st, m)
  | Some (childId, type) =>
      (applyNote type now st childId (NoteModal.noteText m),
       NoteModal.mk false (NoteModal.noteText m) None)
  end.

(** [a?.status === "PRESENT"] for the row of [k] on the Today tab. *)
Definition presentToday (st : App) (k : Child.t) : bool :=
  match dayMap st !! Child.id k with
  | Some a => isPRESENT (Attendance.status a)
  | None => false
  end.

(** The button of the row: Check in unless present, else Check out. *)
Definition rowButton (st : App) (k : Child.t) : NoteModal.t :=
  if negb (presentToday st k)
  then openNote (Child.id k) CHECK_IN
  else openNote (Child.id k) CHECK_OUT.

(** ** The roster list of the Children tab *)

Section Roster.
(** [String.prototype.localeCompare] depends on the locale of the browser;
    it is a parameter. *)
Variable localeCompare : jsstring -> jsstring -> Z.

Definition rosterCompare (a b : Child.t) : Z :=
  let aa := if Child.isActive a then 0 else 1 in
  let bb := if Child.isActive b then 0 else 1 in
  if negb (aa =? bb) then aa - bb
  else localeCompare (Child.lastName a ++ [32%N] ++ Child.firstName a)
                     (Child.lastName b ++ [32%N] ++ Child.firstName b).

(** [kids.slice ().sort (...)] *)
Definition rosterView (kids : list Child.t) : list Child.t :=
  Array_sort rosterCompare kids.
End Roster.

(** ** Reference notions of the specification *)

(** All records of one child, one per day that has an entry for it. *)
Definition recordsOf (attendance : gmap jsstring (gmap jsstring Attendance.t))
    (childId : jsstring) : list Attendance.t :=
  omap (fun dm : gmap jsstring Attendance.t => dm !! childId)
       (map_to_list attendance).*2.

Definition sumZ (l : list Z) : Z := foldr Z.add 0 l.

Definition countIf {A : Type} (p : A -> bool) (l : list A) : Z :=
  sumZ (List.map (fun x => if p x then 1 else 0) l).

(** Cumulative minutes: the sum of [totalMinutes], 0 when absent. *)
Definition spec_minutes (attendance : gmap jsstring (gmap jsstring Attendance.t))
    (childId : jsstring) : Z :=
  sumZ (List.map minsOf (recordsOf attendance childId)).

(** Day count for a presence predicate [p]. *)
Definition spec_days (p : Attendance.t -> bool)
    (attendance : gmap jsstring (gmap jsstring Attendance.t))
    (childId : jsstring) : Z :=
  countIf p (recordsOf attendance childId).

(** The presence predicate in the words of the specification:
    [status = PRESENT], or [checkInMs] is set, or [totalMinutes > 0]. *)
Definition spec_present (a : Attendance.t) : bool :=
  isPRESENT (Attendance.status a)
  || bool_decide (is_Some (Attendance.checkInMs a))
  || (0 <? minsOf a).

(** Nearest minute of a non-negative span of milliseconds. *)
Definition spec_round_minutes (diff : Z) : Z := (diff + 30000) / 60000.

(** No day of the history has an entry for the child. *)
Definition noHistory (attendance : gmap jsstring (gmap jsstring Attendance.t))
    (childId : jsstring) : Prop :=
  forall dKey dm, attendance !! dKey = Some dm -> dm !! childId = None.

(** The entry of the history for one (day, child) pair. *)
Definition recordAt (attendance : gmap jsstring (gmap jsstring Attendance.t))
    (dKey childId : jsstring) : option Attendance.t :=
  attendance !! dKey ≫= fun dm : gmap jsstring Attendance.t => dm !! childId.

(** A child after Archive / Restore: every field but [isActive] is kept. *)
Definition sameButActive (flip : bool) (x y : Child.t) : Prop :=
  Child.id y = Child.id x
  /\ Child.firstName y = Child.firstName x
  /\ Child.lastName y = Child.lastName x
  /\ Child.guardian y = Child.guardian x
  /\ Child.allergies y = Child.allergies x
  /\ Child.isActive y = (if flip then negb (Child.isActive x) else Child.isActive x).

(** A string that is empty or starts with a character [trim] keeps. *)
Definition headKept (s : jsstring) : bool :=
  match s with
  | [] => true
  | c :: _ => negb (isWhiteSpace c)
  end.

(** Descending order of an integer key, the order [key b - key a] sorts by. *)
Definition descending {A : Type} (key : A -> Z) (a b : A) : Prop :=
  key b <= key a.

(** Lower-casing gives the empty string for the empty string only. *)
Definition lowerNonEmpty (toLowerCase : jsstring -> jsstring) : Prop :=
  forall s, toLowerCase s = [] <-> s = [].

(** What follows the separator is lower-cased as it is on its own.  The
    separator ends with a space, which is neither a cased letter nor a
    case-ignorable character nor half of a surrogate pair, so the rule of
    the final sigma and the pairing of code units see nothing across it. *)
Definition lowerAfterSeparator (toLowerCase : jsstring -> jsstring) : Prop :=
  forall c a, exists p,
    toLowerCase (c ++ noteSeparator ++ a) = p ++ toLowerCase a.

(** What precedes the separator is lower-cased as it is on its own: the
    separator starts with a space as well. *)
Definition lowerBeforeSeparator (toLowerCase : jsstring -> jsstring) : Prop :=
  forall c a, exists s,
    toLowerCase (c ++ noteSeparator ++ a) = toLowerCase c ++ s.

(** The stored snapshot is the roster and the history on screen. *)
Definition synced (st : App) : Prop :=
  stored st = Some (kids st, attendance st).

(** The shape of the records the two transitions write: a PRESENT record
    has a check-in time and neither check-out time nor total; an ABSENT
    record has a check-out time and the total that [minutesBetween] gives
    for its two times, 0 when that is undefined. *)
Definition sessionRecord (a : Attendance.t) : Prop :=
  match Attendance.status a with
  | PRESENT =>
      is_Some (Attendance.checkInMs a)
      /\ Attendance.checkOutMs a = None
      /\ Attendance.totalMinutes a = None
  | ABSENT =>
      exists out,
        Attendance.checkOutMs a = Some out
        /\ Attendance.totalMinutes a
           = Some (default 0 (minutesBetween (Attendance.checkInMs a) (Some out)))
  end.

Definition allRecords (P : Attendance.t -> Prop)
    (attendance : gmap jsstring (gmap jsstring Attendance.t)) : Prop :=
  forall dKey childId a, recordAt attendance dKey childId = Some a -> P a.

(** A child as [saveChild] writes it: names and guardian trimmed and not
    empty, allergies present and trimmed. *)
Definition savedShape (k : Child.t) : Prop :=
  (trim (Child.firstName k) = Child.firstName k /\ Child.firstName k <> [])
  /\ (trim (Child.lastName k) = Child.lastName k /\ Child.lastName k <> [])
  /\ (trim (Child.guardian k) = Child.guardian k /\ Child.guardian k <> [])
  /\ exists al, Child.allergies k = Some al /\ trim al = al.

(** The order of the roster list: no archived child before an active one. *)
Definition activeBefore (a b : Child.t) : Prop :=
  Child.isActive b = true -> Child.isActive a = true.

(** A code unit of a decimal digit. *)
Definition isDigit (c : N) : bool := ((48 <=? c) && (c <=? 57))%N.

(** The dates whose year has four digits. *)
Definition fourDigitYear (d : LocalDate.t) : Prop :=
  1000 <= LocalDate.getFullYear d <= 9999
  /\ 0 <= LocalDate.getMonth d <= 11
  /\ 1 <= LocalDate.getDate d <= 31.

(** The calendar order of two dates. *)
Definition dateBefore (d1 d2 : LocalDate.t) : Prop :=
  LocalDate.getFullYear d1 < LocalDate.getFullYear d2
  \/ (LocalDate.getFullYear d1 = LocalDate.getFullYear d2
      /\ (LocalDate.getMonth d1 < LocalDate.getMonth d2
          \/ (LocalDate.getMonth d1 = LocalDate.getMonth d2
              /\ LocalDate.getDate d1 < LocalDate.getDate d2))).

(** The code unit of the decimal digit [n]. *)
Definition digit (n : Z) : N := Z.to_N (48 + n).

(** ** Sample states *)

Definition emptyForm : ChildForm.t := ChildForm.mk [] [] [] [] true.

(** The default state of a first visit on the day [2024-03-04]. *)
Definition seedApp : App :=
  mkApp (js "2024-03-04") [hannah; morgan] {[ js "2024-03-04" := ∅ ]} None
        false ADD None emptyForm.

(** A first visit with the clock at the epoch day. *)
Definition epochApp : App :=
  mkApp (js "1970-01-01") [hannah] ∅ None false ADD None emptyForm.

(** A record checked in at the epoch instant 0 and checked out later. *)
Definition epochRecord : Attendance.t :=
  Attendance.mk ABSENT (Some 0) (Some 1800000) (Some 0) (Some []) (Some []).

Definition epochHistory : gmap jsstring (gmap jsstring Attendance.t) :=
  {[ js "1970-01-01" := {[ js "k1" := epochRecord ]} ]}.

(** Two days for [k2], 45 and 60 minutes. *)
Definition twoDays : gmap jsstring (gmap jsstring Attendance.t) :=
  {[ js "2024-03-04" :=
       {[ js "k2" := Attendance.mk ABSENT (Some 1000) (Some 2701000) (Some 45)
                                   (Some []) (Some []) ]};
     js "2024-03-05" :=
       {[ js "k2" := Attendance.mk ABSENT (Some 5000) (Some 3605000) (Some 60)
                                   (Some []) (Some []) ]} ]}.

Definition filledForm : ChildForm.t :=
  ChildForm.mk (js " Ava ") (js "Stone") (js "Riley ") (js " ") true.

Definition blankGuardianForm : ChildForm.t :=
  ChildForm.mk (js "Ava") (js "Stone") (js "   ") [] true.

(** * Properties *)

(** ** Check-in and check-out *)

Lemma orEmpty_id (s : jsstring) : orEmpty s = s.
Proof. by destruct s. Qed.

Lemma recordAt_insert_day (att : gmap jsstring (gmap jsstring Attendance.t))
    (dKey c : jsstring) (a : Attendance.t) (d c' : jsstring) :
  recordAt (<[dKey := <[c := a]> (default ∅ (att !! dKey))]> att) d c' =
  if decide (dKey = d ∧ c = c') then Some a else recordAt att d c'.
Proof.
  unfold recordAt.
  destruct (decide (dKey = d)) as [->|Hd].
  - rewrite lookup_insert_eq. simpl.
    destruct (decide (c = c')) as [->|Hc].
    + rewrite lookup_insert_eq. by rewrite decide_True.
    + rewrite lookup_insert_ne by done.
      rewrite decide_False by (intros [_ ?]; done).
      by destruct (att !! d).
  - rewrite lookup_insert_ne by done.
    by rewrite decide_False by (intros [? _]; done).
Qed.

(** C1. Check-in creates or overwrites the record of the child for the
    current day: PRESENT, checked in at [now], no check-out time and no
    total, the given note as check-in note and an empty check-out note,
    whatever the history held before. *)
Theorem doCheckIn_record (now : Z) (st : App) (childId note : jsstring) :
  recordAt (attendance (doCheckIn now st childId note)) (dateKey st) childId =
    Some (Attendance.mk PRESENT (Some now) None None (Some note) (Some []))
  ∧ orEmpty note = note
  ∧ kids (doCheckIn now st childId note) = kids st
  ∧ dateKey (doCheckIn now st childId note) = dateKey st.
Proof.
  split_and!; try done; [|apply orEmpty_id].
  unfold doCheckIn; simpl.
  rewrite recordAt_insert_day, decide_True by done.
  by rewrite orEmpty_id.
Qed.

(** C2. Check-out sets the record of the day to ABSENT, keeps the check-in
    time and the check-in note of the record it found, stamps the
    check-out time [now], stores [minutesBetween checkInMs now] or 0 when
    that is undefined, and stores the given note; with no record for the
    day the result has no check-in time and a total of 0. *)
Theorem doCheckOut_record (now : Z) (st : App) (childId note : jsstring) :
  recordAt (attendance (doCheckOut now st childId note)) (dateKey st) childId =
    match recordAt (attendance st) (dateKey st) childId with
    | Some a =>
        Some (Attendance.mk ABSENT
                (Attendance.checkInMs a)
                (Some now)
                (Some (default 0 (minutesBetween (Attendance.checkInMs a) (Some now))))
                (Some (default [] (Attendance.checkInNote a)))
                (Some note))
    | None =>
        Some (Attendance.mk ABSENT None (Some now) (Some 0) (Some []) (Some note))
    end.
Proof.
  unfold doCheckOut; simpl.
  rewrite recordAt_insert_day, decide_True by done.
  unfold dayMap, recordAt.
  destruct (attendance st !! dateKey st) as [dm|]; simpl.
  - destruct (dm !! childId) as [a|]; simpl; rewrite orEmpty_id; [|done].
    destruct (Attendance.checkInNote a) as [s|]; simpl; [|done].
    by rewrite orEmpty_id.
  - rewrite lookup_empty. simpl. by rewrite orEmpty_id.
Qed.

(** C6. A check-in or check-out of child [childId] replaces the single
    entry (current day, [childId]): the entry of every other (day, child)
    pair is the one of the history before, and every other day map is
    the same map. *)
Theorem transitions_frame (now : Z) (st : App) (childId note dKey c : jsstring) :
  (dKey, c) ≠ (dateKey st, childId) →
  recordAt (attendance (doCheckIn now st childId note)) dKey c
    = recordAt (attendance st) dKey c
  ∧ recordAt (attendance (doCheckOut now st childId note)) dKey c
    = recordAt (attendance st) dKey c
  ∧ (dKey ≠ dateKey st →
     attendance (doCheckIn now st childId note) !! dKey = attendance st !! dKey
     ∧ attendance (doCheckOut now st childId note) !! dKey = attendance st !! dKey).
Proof.
  intros Hne. unfold doCheckIn, doCheckOut; simpl.
  rewrite !recordAt_insert_day.
  rewrite !decide_False by (intros [<- <-]; done).
  split_and!; try done.
  intros Hd. split; by rewrite lookup_insert_ne.
Qed.

Lemma transitions_frame_witness :
  recordAt (attendance
              (doCheckIn 1709625600000
                 (mkApp (js "2024-03-05") [hannah; morgan] twoDays None
                        false ADD None emptyForm)
                 (js "k1") (js "Late arrival")))
           (js "2024-03-05") (js "k2")
  = Some (Attendance.mk ABSENT (Some 5000) (Some 3605000) (Some 60)
                        (Some []) (Some []))
  ∧ recordAt (attendance
                (doCheckOut 1709625600000
                   (mkApp (js "2024-03-05") [hannah; morgan] twoDays None
                          false ADD None emptyForm)
                   (js "k2") (js "Picked up by Dad")))
             (js "2024-03-04") (js "k2")
    = Some (Attendance.mk ABSENT (Some 1000) (Some 2701000) (Some 45)
                          (Some []) (Some [])).
Proof.
  split.
  - destruct (transitions_frame 1709625600000
                (mkApp (js "2024-03-05") [hannah; morgan] twoDays None
                       false ADD None emptyForm)
                (js "k1") (js "Late arrival") (js "2024-03-05") (js "k2"))
      as (Hin & _); [discriminate|].
    rewrite Hin. reflexivity.
  - destruct (transitions_frame 1709625600000
                (mkApp (js "2024-03-05") [hannah; morgan] twoDays None
                       false ADD None emptyForm)
                (js "k2") (js "Picked up by Dad") (js "2024-03-04") (js "k2"))
      as (_ & Hout & _); [discriminate|].
    rewrite Hout. reflexivity.
Defined.

(** ** Durations *)

Lemma Math_round_minutes (diff : Z) :
  Math_round (inject_Z diff / inject_Z 60000) = spec_round_minutes diff.
Proof.
  unfold Math_round, spec_round_minutes.
  assert (inject_Z diff / inject_Z 60000 + (1 # 2) == (diff + 30000) # 60000)%Q as ->.
  { unfold Qeq, Qdiv, Qplus, Qmult, Qinv, inject_Z; simpl. lia. }
  reflexivity.
Qed.

Lemma spec_round_minutes_nearest (diff : Z) :
  60000 * spec_round_minutes diff - 30000 <= diff
  < 60000 * spec_round_minutes diff + 30000.
Proof.
  unfold spec_round_minutes.
  pose proof (Z.div_mod (diff + 30000) 60000 ltac:(lia)).
  pose proof (Z.mod_pos_bound (diff + 30000) 60000 ltac:(lia)).
  lia.
Qed.

(** C3 (amended). For timestamps other than 0: when [s <= e] the result is
    the span in minutes rounded to the nearest minute, and is not
    negative; when [e < s] the result is absent.  The result is absent as
    well when an endpoint is missing or is the timestamp 0. *)
Theorem minutesBetween_nonzero (s e : Z) :
  s ≠ 0 → e ≠ 0 →
  (s <= e →
     minutesBetween (Some s) (Some e)
       = Some (Math_round (inject_Z (e - s) / inject_Z 60000))
     ∧ Math_round (inject_Z (e - s) / inject_Z 60000) = spec_round_minutes (e - s)
     ∧ 0 <= spec_round_minutes (e - s)
     ∧ 60000 * spec_round_minutes (e - s) - 30000 <= e - s
         < 60000 * spec_round_minutes (e - s) + 30000)
  ∧ (e < s → minutesBetween (Some s) (Some e) = None)
  ∧ (∀ x, minutesBetween None x = None ∧ minutesBetween x None = None
          ∧ minutesBetween (Some 0) x = None ∧ minutesBetween x (Some 0) = None).
Proof.
  intros Hs He. split_and!.
  - intros Hle. unfold minutesBetween; simpl.
    destruct (Z.eqb_spec s 0); [done|]. destruct (Z.eqb_spec e 0); [done|]. simpl.
    destruct (Z.ltb_spec (e - s) 0); [lia|].
    split; [done|]. split; [apply Math_round_minutes|].
    split; [|apply spec_round_minutes_nearest].
    unfold spec_round_minutes. apply Z.div_pos; lia.
  - intros Hlt. unfold minutesBetween; simpl.
    destruct (Z.eqb_spec s 0); [done|]. destruct (Z.eqb_spec e 0); [done|]. simpl.
    destruct (Z.ltb_spec (e - s) 0); [done|lia].
  - intros x. unfold minutesBetween. split_and!; try done.
    + by destruct (falsyNum x).
    + by destruct (falsyNum x).
Qed.

Lemma minutesBetween_nonzero_witness :
  minutesBetween (Some 1709539200000) (Some 1709541000000) = Some 30.
Proof.
  destruct (minutesBetween_nonzero 1709539200000 1709541000000) as [H _];
    [lia | lia |].
  destruct H as [H _]; [lia|]. rewrite H. reflexivity.
Defined.

(** C3, as stated, fails at the timestamp 0: the endpoints 0 and 60000 are
    both present and in order, the span is one minute, and the result is
    absent. *)
Lemma minutesBetween_epoch_start :
  0 <= 60000
  ∧ Math_round (inject_Z (60000 - 0) / inject_Z 60000) = 1
  ∧ minutesBetween (Some 0) (Some 60000) = None.
Proof. split_and!; [lia | reflexivity | reflexivity]. Qed.

(** ** Roster editing *)

Lemma emptyStr_true (s : jsstring) : emptyStr s = true ↔ s = [].
Proof. destruct s; simpl; split; congruence. Qed.

Lemma emptyStr_false (s : jsstring) : emptyStr s = false ↔ s ≠ [].
Proof. destruct s; simpl; split; congruence. Qed.

(** C9 (amended). When the first name, the last name or the guardian of
    the form is empty after trimming, saving the form changes nothing:
    the state, and with it the roster, the history and the stored
    snapshot, is the one before, in ADD and in EDIT mode.  When the three
    are non-empty and the mode is ADD, the roster gains at its end one
    child with the trimmed fields of the form and the id ["k_"] followed
    by the draw of the generator, and the history is kept.  The id is not
    checked against the roster: the ids of a roster with distinct ids
    stay distinct exactly when the drawn id is not one of them. *)
Theorem saveChild_validation (rnd : jsstring) (st : App) :
  let f := trim (ChildForm.firstName (childForm st)) in
  let l := trim (ChildForm.lastName (childForm st)) in
  let g := trim (ChildForm.guardian (childForm st)) in
  (f = [] ∨ l = [] ∨ g = [] → saveChild rnd st = st)
  ∧ (f ≠ [] → l ≠ [] → g ≠ [] → childMode st = ADD →
     kids (saveChild rnd st) =
       kids st ++
         [Child.mk (js "k_" ++ rnd) f l (ChildForm.isActive (childForm st)) g
                   (Some (trim (ChildForm.allergies (childForm st))))]
     ∧ attendance (saveChild rnd st) = attendance st
     ∧ stored (saveChild rnd st)
         = Some (kids (saveChild rnd st), attendance st)
     ∧ (NoDup (List.map Child.id (kids st)) →
        NoDup (List.map Child.id (kids (saveChild rnd st)))
        ↔ js "k_" ++ rnd ∉ List.map Child.id (kids st))).
Proof.
  intros f l g. unfold saveChild. fold f l g. split.
  - intros Hbad.
    assert (emptyStr f || emptyStr l || emptyStr g = true) as ->; [|done].
    destruct Hbad as [-> | [-> | ->]]; simpl; [done| |].
    + by rewrite orb_true_r.
    + by rewrite orb_true_r.
  - intros Hf Hl Hg Hmode.
    apply emptyStr_false in Hf, Hl, Hg. rewrite Hf, Hl, Hg, Hmode. simpl.
    split_and!; try done.
    intros Hnd. rewrite map_app. simpl. split.
    + intros Hnd' Hin. apply NoDup_app in Hnd' as (_ & Hdis & _).
      apply (Hdis _ Hin). left.
    + intros Hfresh. apply NoDup_app.
      split_and!; [done| |apply NoDup_singleton].
      by intros i Hi ->%list_elem_of_singleton.
Qed.

Lemma saveChild_validation_witness :
  saveChild (js "a3f") (mkApp (js "2024-03-04") [hannah] ∅ None true EDIT
                              (Some (js "k1")) blankGuardianForm)
    = mkApp (js "2024-03-04") [hannah] ∅ None true EDIT
            (Some (js "k1")) blankGuardianForm
  ∧ kids (saveChild (js "a3f")
            (mkApp (js "2024-03-04") [hannah] ∅ None true ADD None filledForm))
    = [hannah;
       Child.mk (js "k_a3f") (js "Ava") (js "Stone") true (js "Riley") (Some [])].
Proof.
  split.
  - apply (saveChild_validation (js "a3f")). right; right. reflexivity.
  - apply (saveChild_validation (js "a3f")
             (mkApp (js "2024-03-04") [hannah] ∅ None true ADD None filledForm));
      [discriminate | discriminate | discriminate | reflexivity].
Defined.

(** C9, as stated, fails on the freshness of the id: two valid additions
    with the same draw of the generator give the second child the id of
    the first, which is in the roster already. *)
Lemma saveChild_repeated_draw :
  kids (saveChild (js "8")
          (mkApp (js "2024-03-04") [hannah] ∅ None true ADD None filledForm))
  = [hannah;
     Child.mk (js "k_8") (js "Ava") (js "Stone") true (js "Riley") (Some [])]
  ∧ List.map Child.id
      (kids (saveChild (js "8")
               (mkApp (js "2024-03-04")
                      [hannah;
                       Child.mk (js "k_8") (js "Ava") (js "Stone") true
                                (js "Riley") (Some [])]
                      ∅ None true ADD None filledForm)))
    = [js "k1"; js "k_8"; js "k_8"]
  ∧ ¬ NoDup [js "k1"; js "k_8"; js "k_8"].
Proof.
  split_and!; [reflexivity | reflexivity |].
  intros Hnd. apply (bool_decide_pack _) in Hnd. by vm_compute in Hnd.
Qed.

(** C10. Archive / Restore of the child with id [kid] keeps the roster
    position by position: a child with another id is the same child; a
    child with the id [kid] keeps its id, names, guardian and allergies
    and has its [isActive] flag negated.  The length of the roster and the
    history are the same. *)
Theorem toggleActive_frame (st : App) (kid : jsstring) :
  Forall2 (fun x y => if decide (Child.id x = kid)
                      then sameButActive true x y
                      else y = x)
          (kids st) (kids (toggleActive st kid))
  ∧ length (kids (toggleActive st kid)) = length (kids st)
  ∧ List.map Child.id (kids (toggleActive st kid)) = List.map Child.id (kids st)
  ∧ attendance (toggleActive st kid) = attendance st.
Proof.
  unfold toggleActive; simpl.
  split_and!; [| by rewrite length_map | | done].
  - induction (kids st) as [|x ks IH]; simpl; constructor; [|done].
    unfold sameButActive. by destruct (decide (Child.id x = kid)).
  - induction (kids st) as [|x ks IH]; simpl; [done|].
    rewrite IH. by destruct (decide (Child.id x = kid)).
Qed.

(** ** Note merging *)

Lemma headKept_trimStart (s : jsstring) : headKept (trimStart s) = true.
Proof.
  induction s as [|c s IH]; simpl; [done|].
  destruct (isWhiteSpace c) eqn:Hc; [done|]. simpl. by rewrite Hc.
Qed.

Lemma trimStart_fixed (s : jsstring) : headKept s = true → trimStart s = s.
Proof.
  destruct s as [|c s]; simpl; [done|].
  by destruct (isWhiteSpace c).
Qed.

Lemma trimStart_split (s : jsstring) : ∃ w, s = w ++ trimStart s.
Proof.
  induction s as [|c s [w IH]]; simpl.
  - by exists [].
  - destruct (isWhiteSpace c).
    + exists (c :: w). simpl. by rewrite <- IH.
    + by exists [].
Qed.

Lemma headKept_app (x y : jsstring) :
  x ≠ [] → headKept (x ++ y) = headKept x.
Proof. by destruct x. Qed.

Lemma headKept_prefix (x y : jsstring) :
  headKept (x ++ y) = true → headKept x = true.
Proof. by destruct x. Qed.

Lemma trim_fixed (s : jsstring) :
  headKept s = true → headKept (rev s) = true → trim s = s.
Proof.
  intros Hh Hl. unfold trim, trimEnd.
  rewrite (trimStart_fixed s Hh), (trimStart_fixed (rev s) Hl).
  apply rev_involutive.
Qed.

Lemma headKept_trim (s : jsstring) : headKept (trim s) = true.
Proof.
  unfold trim, trimEnd.
  destruct (trimStart_split (rev (trimStart s))) as [w Hw].
  apply (f_equal (@rev N)) in Hw. rewrite rev_involutive, rev_app_distr in Hw.
  apply (headKept_prefix _ (rev w)). rewrite <- Hw. apply headKept_trimStart.
Qed.

Lemma lastKept_trim (s : jsstring) : headKept (rev (trim s)) = true.
Proof.
  unfold trim, trimEnd. rewrite rev_involutive. apply headKept_trimStart.
Qed.

Lemma trim_idempotent (s : jsstring) : trim (trim s) = trim s.
Proof. apply trim_fixed; [apply headKept_trim | apply lastKept_trim]. Qed.

Lemma trim_joined (c a : jsstring) :
  trim c ≠ [] → trim a ≠ [] →
  trim (trim c ++ noteSeparator ++ trim a) = trim c ++ noteSeparator ++ trim a.
Proof.
  destruct (trim c) as [|x c'] eqn:Hc; [done|].
  destruct (trim a) as [|y a'] eqn:Ha; [done|].
  intros _ _. apply trim_fixed.
  - rewrite headKept_app by done. rewrite <- Hc. apply headKept_trim.
  - rewrite !rev_app_distr. rewrite <- app_assoc.
    rewrite headKept_app.
    + rewrite <- Ha. apply lastKept_trim.
    + intros Hnil. apply (f_equal (@rev N)) in Hnil.
      rewrite rev_involutive in Hnil. done.
Qed.

Lemma startsWith_app (t y : jsstring) : startsWith (t ++ y) t = true.
Proof.
  induction t as [|b t IH]; simpl; [done|].
  by rewrite N.eqb_refl, IH.
Qed.

Lemma includes_suffix (x t : jsstring) : includes (x ++ t) t = true.
Proof.
  induction x as [|c x IH]; simpl.
  - replace t with (t ++ []) at 1 by apply app_nil_r.
    destruct t; simpl; [done|]. rewrite N.eqb_refl. simpl.
    by rewrite startsWith_app.
  - rewrite IH. apply orb_true_r.
Qed.

Lemma includes_self (t : jsstring) : includes t t = true.
Proof. apply (includes_suffix [] t). Qed.

Lemma includes_nil_inv (t : jsstring) : includes [] t = true → t = [].
Proof. by destruct t. Qed.

Section NoteProofs.
Variable toLowerCase : jsstring -> jsstring.

Lemma appendNote_trimmed (c a : jsstring) :
  trim (appendNote toLowerCase c a) = appendNote toLowerCase c a.
Proof.
  unfold appendNote.
  destruct (emptyStr (trim a)) eqn:Ha; [apply trim_idempotent|].
  destruct (emptyStr (trim c)) eqn:Hc; [apply trim_idempotent|].
  destruct (includes _ _); [apply trim_idempotent|].
  apply emptyStr_false in Ha, Hc. by apply trim_joined.
Qed.

Lemma appendNote_nonEmpty (c a : jsstring) :
  emptyStr (trim a) = false → emptyStr (appendNote toLowerCase c a) = false.
Proof.
  intros Ha. unfold appendNote. rewrite Ha.
  destruct (emptyStr (trim c)) eqn:Hc; [done|].
  destruct (includes _ _); [done|].
  by destruct (trim c).
Qed.

Lemma includes_after_separator (c a : jsstring) :
  lowerAfterSeparator toLowerCase →
  includes (toLowerCase (c ++ noteSeparator ++ a)) (toLowerCase a) = true.
Proof. intros Hsep. destruct (Hsep c a) as [p ->]. apply includes_suffix. Qed.

(** C7. Merging the same addition a second time changes nothing, for a
    lower-casing that treats what follows the separator as it treats it
    on its own, as [toLowerCase] does.  When the lower-cased trimmed
    current note contains the lower-cased trimmed addition, the result is
    the (trimmed) current note. *)
Theorem appendNote_idempotent (c a : jsstring) :
  lowerAfterSeparator toLowerCase →
  appendNote toLowerCase (appendNote toLowerCase c a) a = appendNote toLowerCase c a
  ∧ (lowerNonEmpty toLowerCase →
     includes (toLowerCase (trim c)) (toLowerCase (trim a)) = true →
     appendNote toLowerCase c a = trim c).
Proof.
  intros Hsep. split.
  - unfold appendNote at 1. rewrite appendNote_trimmed.
    destruct (emptyStr (trim a)) eqn:Ha; [done|].
    rewrite (appendNote_nonEmpty c a Ha).
    assert (includes (toLowerCase (appendNote toLowerCase c a))
                     (toLowerCase (trim a)) = true) as ->; [|done].
    unfold appendNote. rewrite Ha.
    destruct (emptyStr (trim c)) eqn:Hc; [apply includes_self|].
    destruct (includes (toLowerCase (trim c)) _) eqn:Hinc; [done|].
    by apply includes_after_separator.
  - intros Hne Hinc. unfold appendNote. rewrite Hinc.
    destruct (emptyStr (trim a)) eqn:Ha; [done|].
    destruct (emptyStr (trim c)) eqn:Hc; [|done].
    apply emptyStr_true in Hc. rewrite Hc in Hinc.
    rewrite (proj2 (Hne []) eq_refl) in Hinc.
    apply includes_nil_inv in Hinc. apply (proj1 (Hne _)) in Hinc.
    by rewrite Hinc in Ha.
Qed.
End NoteProofs.

Lemma beforeCased_separator (r z : jsstring) :
  beforeCased (r ++ 32%N :: z) = beforeCased r.
Proof.
  induction r as [|x r IH]; simpl; [done|].
  by destruct (isCaseIgnorable x).
Qed.

Lemma lowerFrom_after_separator (b : bool) (c a : jsstring) :
  ∃ p, lowerFrom b (c ++ noteSeparator ++ a) = p ++ lowerFrom false a.
Proof.
  revert b. induction c as [|x c IH]; intros b.
  - by exists noteSeparator.
  - destruct (IH (if isCaseIgnorable x then b else isCasedLetter x)) as [p Hp].
    change ((x :: c) ++ noteSeparator ++ a) with (x :: (c ++ noteSeparator ++ a)).
    cbn [lowerFrom]. rewrite Hp. by eexists (_ :: p).
Qed.

Lemma lowerFrom_before_separator (b : bool) (c a : jsstring) :
  ∃ s, lowerFrom b (c ++ noteSeparator ++ a) = lowerFrom b c ++ s.
Proof.
  revert b. induction c as [|x c IH]; intros b.
  - by eexists.
  - destruct (IH (if isCaseIgnorable x then b else isCasedLetter x)) as [s Hs].
    change ((x :: c) ++ noteSeparator ++ a) with (x :: (c ++ noteSeparator ++ a)).
    cbn [lowerFrom]. rewrite Hs.
    change (noteSeparator ++ a) with (32%N :: (8226%N :: 32%N :: a)).
    rewrite beforeCased_separator. by exists s.
Qed.

Lemma sigma_lowerAfterSeparator : lowerAfterSeparator sigmaToLowerCase.
Proof. intros c a. apply lowerFrom_after_separator. Qed.

Lemma sigma_lowerBeforeSeparator : lowerBeforeSeparator sigmaToLowerCase.
Proof. intros c a. apply lowerFrom_before_separator. Qed.

Lemma sigma_lowerNonEmpty : lowerNonEmpty sigmaToLowerCase.
Proof. intros s. by destruct s. Qed.

Lemma appendNote_idempotent_witness :
  appendNote sigmaToLowerCase
             (appendNote sigmaToLowerCase [913%N; 931%N] [963%N]) [963%N]
    = [913%N; 931%N] ++ noteSeparator ++ [963%N]
  ∧ appendNote sigmaToLowerCase
               (js "Late arrival" ++ noteSeparator ++ js "Picked up by Mom ")
               (js " picked up by mom")
    = trim (js "Late arrival" ++ noteSeparator ++ js "Picked up by Mom ").
Proof.
  split.
  - rewrite (proj1 (appendNote_idempotent sigmaToLowerCase
                      [913%N; 931%N] [963%N] sigma_lowerAfterSeparator)).
    reflexivity.
  - apply (appendNote_idempotent sigmaToLowerCase);
      [apply sigma_lowerAfterSeparator | apply sigma_lowerNonEmpty | reflexivity].
Defined.

(** ** Sorting *)

Section SortProofs.
Context {A : Type}.

Lemma sortInsert_perm (cmp : A -> A -> Z) (x : A) (l : list A) :
  sortInsert cmp x l ≡ₚ x :: l.
Proof.
  induction l as [|y l IH]; simpl; [done|].
  destruct (cmp x y <=? 0); [done|].
  rewrite IH. apply perm_swap.
Qed.

Lemma Array_sort_perm (cmp : A -> A -> Z) (l : list A) :
  Array_sort cmp l ≡ₚ l.
Proof.
  induction l as [|x l IH]; simpl; [done|].
  fold (Array_sort cmp l). by rewrite sortInsert_perm, IH.
Qed.

(** Comparators of the form [key b - key a]: descending order of [key]. *)
Variable key : A -> Z.

Lemma sortInsert_sorted (x : A) (l : list A) :
  StronglySorted (descending key) l →
  StronglySorted (descending key) (sortInsert (fun a b => key b - key a) x l).
Proof.
  induction 1 as [|y l Hs IH Hy]; simpl.
  - repeat constructor.
  - destruct (Z.leb_spec (key y - key x) 0) as [Hle|Hgt].
    + constructor; [by constructor|].
      constructor; [unfold descending; lia|].
      eapply Forall_impl; [exact Hy|]. unfold descending. simpl. lia.
    + constructor; [done|].
      rewrite sortInsert_perm. constructor; [unfold descending; lia|done].
Qed.

Lemma Array_sort_sorted (l : list A) :
  StronglySorted (descending key) (Array_sort (fun a b => key b - key a) l).
Proof.
  induction l as [|x l IH]; simpl; [constructor|].
  by apply sortInsert_sorted.
Qed.

Lemma sortInsert_filter_key (m : Z) (x : A) (l : list A) :
  filter (fun r => key r = m) (sortInsert (fun a b => key b - key a) x l)
  = filter (fun r => key r = m) (x :: l).
Proof.
  induction l as [|y l IH]; simpl; [done|].
  destruct (Z.leb_spec (key y - key x) 0) as [Hle|Hgt]; [done|].
  rewrite (filter_cons _ y), IH, !(filter_cons _ x), (filter_cons _ y).
  destruct (decide (key x = m)), (decide (key y = m)); try done. lia.
Qed.

Lemma Array_sort_stable (m : Z) (l : list A) :
  filter (fun r => key r = m) (Array_sort (fun a b => key b - key a) l)
  = filter (fun r => key r = m) l.
Proof.
  induction l as [|x l IH]; simpl; [done|].
  fold (Array_sort (fun a b => key b - key a) l).
  by rewrite sortInsert_filter_key, !(filter_cons _ x), IH.
Qed.
End SortProofs.

(** ** Aggregation *)

Lemma sumZ_perm (l1 l2 : list Z) : l1 ≡ₚ l2 → sumZ l1 = sumZ l2.
Proof. induction 1; simpl; lia. Qed.

Lemma countIf_perm {A : Type} (p : A -> bool) (l1 l2 : list A) :
  l1 ≡ₚ l2 → countIf p l1 = countIf p l2.
Proof. intros H. unfold countIf. by apply sumZ_perm, Permutation_map. Qed.

(** The running totals after a list of records of one child. *)
Lemma foldl_addRecord (l : list Attendance.t) (cur : Totals.t) :
  foldl addRecord cur l
  = Totals.mk (Totals.days cur + countIf countsAsPresent l)
              (Totals.minutes cur + sumZ (List.map minsOf l)).
Proof.
  revert cur. induction l as [|a l IH]; intros cur; simpl.
  - destruct cur. unfold countIf. simpl. f_equal; lia.
  - rewrite IH. unfold addRecord, countIf. simpl.
    destruct (countsAsPresent a); simpl; f_equal; lia.
Qed.

(** Records under the key [childId] in a list of entries. *)
Lemma tally_lookup (totals : gmap jsstring Totals.t)
    (e : jsstring * Attendance.t) (childId : jsstring) :
  default noTotals (tally totals e !! childId)
  = if decide (e.1 = childId)
    then addRecord (default noTotals (totals !! childId)) e.2
    else default noTotals (totals !! childId).
Proof.
  unfold tally. destruct (decide (e.1 = childId)) as [<-|Hne].
  - by rewrite lookup_insert_eq.
  - by rewrite lookup_insert_ne.
Qed.

Lemma foldl_tally_lookup (l : list (jsstring * Attendance.t))
    (totals : gmap jsstring Totals.t) (childId : jsstring) :
  default noTotals (foldl tally totals l !! childId)
  = foldl addRecord (default noTotals (totals !! childId))
          (filter (fun e => e.1 = childId) l).*2.
Proof.
  revert totals. induction l as [|e l IH]; intros totals; simpl; [done|].
  rewrite IH, tally_lookup, filter_cons.
  by destruct (decide (e.1 = childId)).
Qed.

(** The order in which the entries of a day are visited does not matter. *)
Lemma foldl_tally_perm (l1 l2 : list (jsstring * Attendance.t))
    (totals : gmap jsstring Totals.t) (childId : jsstring) :
  l1 ≡ₚ l2 →
  default noTotals (foldl tally totals l1 !! childId)
  = default noTotals (foldl tally totals l2 !! childId).
Proof.
  intros Hp. rewrite !foldl_tally_lookup, !foldl_addRecord.
  assert ((filter (fun e => e.1 = childId) l1).*2
          ≡ₚ (filter (fun e => e.1 = childId) l2).*2) as Hq
    by by rewrite Hp.
  rewrite (countIf_perm _ _ _ Hq).
  by rewrite (sumZ_perm _ _ (Permutation_map minsOf Hq)).
Qed.

Lemma filter_key_NoDup {V : Type} (l : list (jsstring * V)) (k : jsstring) :
  NoDup l.*1 →
  filter (fun e => e.1 = k) l
  = match list_find (fun e => e.1 = k) l with
    | Some (_, e) => [e]
    | None => []
    end.
Proof.
  induction l as [|[k' v] l IH]; intros Hnd; [done|].
  apply NoDup_cons in Hnd as [Hk' Hnd]. rewrite filter_cons. simpl in *.
  destruct (decide (k' = k)) as [->|Hne].
  - f_equal. clear IH Hnd. induction l as [|[k'' w] l IH]; [done|].
    rewrite filter_cons. simpl in *. apply not_elem_of_cons in Hk' as [Hk Hl].
    rewrite decide_False by done. by apply IH.
  - rewrite IH by done.
    by destruct (list_find (λ e, e.1 = k) l) as [[i e]|].
Qed.

Lemma records_of_day (dm : gmap jsstring Attendance.t) (childId : jsstring) :
  (filter (fun e => e.1 = childId) (map_to_list dm)).*2
  = option_list (dm !! childId).
Proof.
  rewrite filter_key_NoDup by apply NoDup_fst_map_to_list.
  destruct (list_find _ _) as [[i [k a]]|] eqn:Hfind.
  - apply list_find_Some in Hfind as (Hi & Hk & _). simpl in Hk. subst k.
    apply list_elem_of_lookup_2, elem_of_map_to_list in Hi. by rewrite Hi.
  - destruct (dm !! childId) as [a|] eqn:Hlk; [|done].
    apply elem_of_map_to_list in Hlk.
    eapply list_find_None, Forall_forall in Hfind; [|exact Hlk]. done.
Qed.

Lemma tallyDay_lookup (att : gmap jsstring (gmap jsstring Attendance.t))
    (totals : gmap jsstring Totals.t) (dKey childId : jsstring) :
  default noTotals (tallyDay att totals dKey !! childId)
  = foldl addRecord (default noTotals (totals !! childId))
          (option_list (default ∅ (att !! dKey) !! childId)).
Proof. unfold tallyDay. by rewrite foldl_tally_lookup, records_of_day. Qed.

Lemma foldl_tallyDay_lookup (att : gmap jsstring (gmap jsstring Attendance.t))
    (days : list jsstring) (totals : gmap jsstring Totals.t) (childId : jsstring) :
  default noTotals (foldl (tallyDay att) totals days !! childId)
  = foldl addRecord (default noTotals (totals !! childId))
          (flat_map (fun d => option_list (default ∅ (att !! d) !! childId)) days).
Proof.
  revert totals. induction days as [|d days IH]; intros totals; simpl; [done|].
  by rewrite IH, tallyDay_lookup, foldl_app.
Qed.

Lemma records_by_key (att : gmap jsstring (gmap jsstring Attendance.t))
    (childId : jsstring) (l : list (jsstring * gmap jsstring Attendance.t)) :
  (∀ d dm, (d, dm) ∈ l → att !! d = Some dm) →
  flat_map (fun d => option_list (default ∅ (att !! d) !! childId)) l.*1
  = omap (fun dm : gmap jsstring Attendance.t => dm !! childId) l.*2.
Proof.
  induction l as [|[d dm] l IH]; intros Hl; [done|].
  rewrite !fmap_cons. simpl.
  rewrite IH by (intros; apply Hl; by right).
  rewrite (Hl d dm) by left. simpl. by destruct (dm !! childId).
Qed.

Lemma records_sorted_days (att : gmap jsstring (gmap jsstring Attendance.t))
    (childId : jsstring) :
  flat_map (fun d => option_list (default ∅ (att !! d) !! childId))
           (Array_sort defaultCompare (Object_keys att))
  ≡ₚ recordsOf att childId.
Proof.
  unfold recordsOf. rewrite <- (records_by_key att).
  - apply Permutation_flat_map, Array_sort_perm.
  - intros d dm. apply elem_of_map_to_list.
Qed.

(** What the loop leaves under [childId] in [totals]. *)
Lemma totalsOf_lookup (att : gmap jsstring (gmap jsstring Attendance.t))
    (childId : jsstring) :
  default noTotals (totalsOf att !! childId)
  = Totals.mk (spec_days countsAsPresent att childId) (spec_minutes att childId).
Proof.
  unfold totalsOf. rewrite foldl_tallyDay_lookup, foldl_addRecord, lookup_empty.
  unfold spec_days, spec_minutes. simpl.
  pose proof (records_sorted_days att childId) as Hp.
  rewrite (countIf_perm _ _ _ Hp).
  by rewrite (sumZ_perm _ _ (Permutation_map minsOf Hp)).
Qed.

Lemma rowOf_totals (att : gmap jsstring (gmap jsstring Attendance.t)) (k : Child.t) :
  rowOf (totalsOf att) k
  = Row.mk (Child.id k) (Child.firstName k ++ [32%N] ++ Child.lastName k)
           (spec_days countsAsPresent att (Child.id k))
           (spec_minutes att (Child.id k))
           (Child.isActive k).
Proof. unfold rowOf. by rewrite totalsOf_lookup. Qed.

Lemma recordsOf_noHistory (att : gmap jsstring (gmap jsstring Attendance.t))
    (childId : jsstring) :
  noHistory att childId → recordsOf att childId = [].
Proof.
  intros Hno. unfold recordsOf.
  assert (∀ l : list (jsstring * gmap jsstring Attendance.t),
            (∀ d dm, (d, dm) ∈ l → att !! d = Some dm) →
            omap (fun dm : gmap jsstring Attendance.t => dm !! childId) l.*2 = [])
    as Hall.
  { induction l as [|[d dm] l IH]; intros Hl; [done|].
    rewrite fmap_cons. simpl.
    rewrite (Hno d dm) by (apply Hl; left).
    apply IH. intros; apply Hl; by right. }
  apply Hall. intros d dm. apply elem_of_map_to_list.
Qed.

Lemma reportRows_perm (kids : list Child.t)
    (att : gmap jsstring (gmap jsstring Attendance.t)) :
  reportRows kids att ≡ₚ List.map (rowOf (totalsOf att)) kids.
Proof. apply Array_sort_perm. Qed.

Lemma elem_of_reportRows (kids : list Child.t)
    (att : gmap jsstring (gmap jsstring Attendance.t)) (r : Row.t) :
  r ∈ reportRows kids att ↔ ∃ k, k ∈ kids ∧ r = rowOf (totalsOf att) k.
Proof.
  rewrite (reportRows_perm kids att), list_elem_of_In, in_map_iff.
  split; intros (k & H1 & H2); exists k.
  - by rewrite list_elem_of_In.
  - by rewrite <- list_elem_of_In.
Qed.

(** C4 (amended). Every row of the report carries, for its child, the sum
    over all day records of that child of [totalMinutes] (0 when absent)
    and the number of day records of that child for which the status is
    PRESENT, or [checkInMs] is set and is not 0, or [totalMinutes > 0]. *)
Theorem reportRows_totals (kids : list Child.t)
    (att : gmap jsstring (gmap jsstring Attendance.t)) (r : Row.t) :
  r ∈ reportRows kids att →
  Row.minutes r = spec_minutes att (Row.id r)
  ∧ Row.days r = spec_days countsAsPresent att (Row.id r)
  ∧ (∃ k, k ∈ kids ∧ Row.id r = Child.id k)
  ∧ (∀ a, countsAsPresent a
          = isPRESENT (Attendance.status a)
            || match Attendance.checkInMs a with
               | Some t => negb (t =? 0)
               | None => false
               end
            || (0 <? default 0 (Attendance.totalMinutes a))).
Proof.
  intros (k & Hk & ->)%elem_of_reportRows. rewrite rowOf_totals. simpl.
  split_and!; [done | done | by exists k |].
  intros a. unfold countsAsPresent, minsOf, falsyNum.
  by destruct (Attendance.checkInMs a), (Attendance.totalMinutes a).
Qed.

Lemma reportRows_totals_witness :
  spec_minutes twoDays (js "k2") = 105
  ∧ spec_days countsAsPresent twoDays (js "k2") = 2.
Proof.
  destruct (reportRows_totals [hannah; morgan] twoDays
              (Row.mk (js "k2") (js "Morgan C.") 2 105 true))
    as (Hm & Hd & _).
  - vm_compute. constructor.
  - split; symmetry; [exact Hm | exact Hd].
Defined.

(** C4, as stated, fails on a record whose [checkInMs] is the timestamp 0,
    the history a check-in at instant 0 and a later check-out leave: the
    record of [k1] has [checkInMs] set, so the presence predicate of the
    specification counts one day, and the report counts none. *)
Lemma reportRows_days_epoch :
  attendance (doCheckOut 1800000 (doCheckIn 0 epochApp (js "k1") []) (js "k1") [])
    = epochHistory
  ∧ recordsOf epochHistory (js "k1") = [epochRecord]
  ∧ spec_present epochRecord = true
  ∧ spec_days spec_present epochHistory (js "k1") = 1
  ∧ reportRows [hannah] epochHistory
    = [Row.mk (js "k1") (js "Hannah C.") 0 0 true].
Proof. split_and!; by vm_compute. Qed.

Lemma filter_map_key {A B : Type} `{EqDecision B} (f : A -> B) (b : B) (l : list A) :
  length (filter (fun x => f x = b) l)
  = length (filter (fun y => y = b) (List.map f l)).
Proof.
  induction l as [|x l IH]; simpl; [done|].
  rewrite (filter_cons _ x), (filter_cons _ (f x)).
  destruct (decide (f x = b)); simpl; by rewrite IH.
Qed.

Lemma filter_eq_NoDup {B : Type} `{EqDecision B} (b : B) (l : list B) :
  NoDup l → b ∈ l → length (filter (fun y => y = b) l) = 1%nat.
Proof.
  induction 1 as [|y l Hy Hnd IH]; intros Hin; [by apply elem_of_nil in Hin|].
  rewrite filter_cons. destruct (decide (y = b)) as [->|Hne].
  - simpl. f_equal. clear IH Hin Hnd.
    induction l as [|z l IH]; [done|].
    apply not_elem_of_cons in Hy as [Hz Hl].
    rewrite filter_cons, decide_False by done. by apply IH.
  - apply elem_of_cons in Hin as [->|Hin]; [done|]. by apply IH.
Qed.

Lemma reportRows_ids (kids : list Child.t)
    (att : gmap jsstring (gmap jsstring Attendance.t)) :
  List.map Row.id (reportRows kids att) ≡ₚ List.map Child.id kids.
Proof.
  rewrite (Permutation_map Row.id (reportRows_perm kids att)), map_map.
  by simpl.
Qed.

(** C5. The rows of the report are, up to order, the roster mapped child
    by child: the ids of the rows are the ids of the roster, as many rows
    as children, and with distinct roster ids every child has exactly one
    row.  A child without any history entry has the row with 0 days and
    0 minutes, whatever its [isActive] flag, which the row copies. *)
Theorem reportRows_complete (kids : list Child.t)
    (att : gmap jsstring (gmap jsstring Attendance.t)) :
  reportRows kids att ≡ₚ List.map (rowOf (totalsOf att)) kids
  ∧ List.map Row.id (reportRows kids att) ≡ₚ List.map Child.id kids
  ∧ length (reportRows kids att) = length kids
  ∧ (NoDup (List.map Child.id kids) →
     ∀ k, k ∈ kids →
       length (filter (fun r => Row.id r = Child.id k) (reportRows kids att))
       = 1%nat)
  ∧ (∀ k, k ∈ kids → noHistory att (Child.id k) →
       Row.mk (Child.id k) (Child.firstName k ++ [32%N] ++ Child.lastName k)
              0 0 (Child.isActive k)
       ∈ reportRows kids att).
Proof.
  split_and!.
  - apply reportRows_perm.
  - apply reportRows_ids.
  - by rewrite (Permutation_length (reportRows_perm kids att)), length_map.
  - intros Hnd k Hk. rewrite filter_map_key.
    rewrite (Permutation_length
               (filter_Permutation (fun y => y = Child.id k) _ _
                                   (reportRows_ids kids att))).
    apply filter_eq_NoDup; [done|].
    apply list_elem_of_In, in_map, list_elem_of_In, Hk.
  - intros k Hk Hno. apply elem_of_reportRows. exists k. split; [done|].
    rewrite rowOf_totals. unfold spec_days, spec_minutes.
    by rewrite (recordsOf_noHistory att _ Hno).
Qed.

Lemma reportRows_complete_witness :
  Row.mk (js "k1") (js "Hannah C.") 0 0 true
    ∈ reportRows [hannah; morgan] twoDays
  ∧ length (filter (fun r => Row.id r = js "k1")
                   (reportRows [hannah; morgan] twoDays)) = 1%nat.
Proof.
  destruct (reportRows_complete [hannah; morgan] twoDays)
    as (_ & _ & _ & Hone & Hzero).
  split.
  - apply (Hzero hannah); [left|].
    intros dKey dm Hd. unfold twoDays in Hd.
    apply lookup_insert_Some in Hd as [[_ <-]|[_ Hd]]; [done|].
    apply lookup_singleton_Some in Hd as [_ <-]. done.
  - apply (Hone ltac:(by apply (bool_decide_unpack _)) hannah). left.
Defined.

(** C8. The rows of the report are in descending order of minutes, and
    the rows of any one minute total follow each other in the order of
    their children in the roster. *)
Theorem reportRows_sorted_stable (kids : list Child.t)
    (att : gmap jsstring (gmap jsstring Attendance.t)) :
  StronglySorted (descending Row.minutes) (reportRows kids att)
  ∧ ∀ m, filter (fun r => Row.minutes r = m) (reportRows kids att)
         = filter (fun r => Row.minutes r = m)
                  (List.map (rowOf (totalsOf att)) kids).
Proof.
  split.
  - apply (Array_sort_sorted Row.minutes).
  - intros m. apply (Array_sort_stable Row.minutes).
Qed.

(** ** Scenarios *)

(** Check-in at 09:00 with a note, check-out at 09:30. *)
Example checkIn_then_checkOut :
  let t0 := 1709539200000 in
  let st1 := doCheckIn t0 seedApp (js "k1") (js "Dropped off by Mom") in
  let st2 := doCheckOut (t0 + 30 * 60000) st1 (js "k1") [] in
  recordAt (attendance st2) (js "2024-03-04") (js "k1")
  = Some (Attendance.mk ABSENT (Some t0) (Some (t0 + 1800000)) (Some 30)
                        (Some (js "Dropped off by Mom")) (Some [])).
Proof. by vm_compute. Qed.

(** Check-out of a child that has no record for the day. *)
Example checkOut_without_checkIn :
  recordAt (attendance (doCheckOut 1709539200000 seedApp (js "k2") []))
           (js "2024-03-04") (js "k2")
  = Some (Attendance.mk ABSENT None (Some 1709539200000) (Some 0)
                        (Some []) (Some [])).
Proof. by vm_compute. Qed.

(** The same quick note tapped twice. *)
Example quickNote_twice :
  appendNote sigmaToLowerCase
    (appendNote sigmaToLowerCase (js "Late pickup") (js "Picked up by Mom"))
    (js "Picked up by Mom")
  = js "Late pickup" ++ noteSeparator ++ js "Picked up by Mom".
Proof. by vm_compute. Qed.

(** Two days of history for [k2]; [k1] has none and is listed after. *)
Example report_twoDays :
  reportRows [hannah; morgan] twoDays
  = [Row.mk (js "k2") (js "Morgan C.") 2 105 true;
     Row.mk (js "k1") (js "Hannah C.") 0 0 true].
Proof. by vm_compute. Qed.

(** Rows of equal minutes stay in roster order. *)
Example report_ties :
  List.map Row.id (reportRows [hannah; morgan] epochHistory)
  = [js "k1"; js "k2"].
Proof. by vm_compute. Qed.

(** Archive of [k1], then the report still lists both children. *)
Example archive_k1 :
  List.map Child.isActive (kids (toggleActive seedApp (js "k1"))) = [false; true]
  ∧ List.map Row.active
             (reportRows (kids (toggleActive seedApp (js "k1"))) twoDays)
    = [true; false].
Proof. by vm_compute. Qed.

(** * Further properties of the component *)

(** ** Persistence and monotonicity of the handlers *)

Lemma handle_synced_or_same (st : App) (e : Event) :
  notReset e →
  synced (handle st e)
  ∨ (kids (handle st e) = kids st
     ∧ attendance (handle st e) = attendance st
     ∧ stored (handle st e) = stored st).
Proof.
  destruct e as [now c n|now c n| |k|f| |rnd|kid|d]; simpl; intros Hnr;
    try (by left); try (by right).
  unfold saveChild.
  destruct (_ || _); [by right|].
  destruct (childMode st); [by left|].
  destruct (editId st) as [e|]; [|by right].
  destruct (emptyStr e); [by right|by left].
Qed.

Lemma handle_dateKey (st : App) (e : Event) :
  notReset e → dateKey (handle st e) = dateKey st.
Proof.
  destruct e as [now c n|now c n| |k|f| |rnd|kid|d]; simpl; try done.
  intros _. unfold saveChild.
  destruct (_ || _); [done|].
  destruct (childMode st); [done|].
  destruct (editId st) as [e|]; [|done].
  by destruct (emptyStr e).
Qed.

Lemma run_snoc (st : App) (es : list Event) (e : Event) :
  run st (es ++ [e]) = handle (run st es) e.
Proof. unfold run. by rewrite foldl_app. Qed.

Lemma Forall_snoc_inv {A : Type} (P : A → Prop) (l : list A) (x : A) :
  Forall P (l ++ [x]) → Forall P l ∧ P x.
Proof.
  intros [Hl Hx]%Forall_app. split; [done|]. by inversion Hx.
Qed.

Lemma run_dateKey (st : App) (es : list Event) :
  Forall notReset es → dateKey (run st es) = dateKey st.
Proof.
  induction es as [|e es IH] using rev_ind; [done|].
  intros [Hes He]%Forall_snoc_inv.
  by rewrite run_snoc, handle_dateKey, IH.
Qed.

(** X1. Every handler but Reset demo data that changes the roster or the
    history saves the new pair in the same step, and a handler that saves
    nothing changes neither: once the stored snapshot is the state on
    screen, it stays so through any sequence of events without a reset.
    Reset demo data removes the stored snapshot and shows the default
    roster with an empty day. *)
Theorem handlers_persist (st : App) (es : list Event) (e : Event) :
  (notReset e →
   synced (handle st e)
   ∨ (kids (handle st e) = kids st
      ∧ attendance (handle st e) = attendance st
      ∧ stored (handle st e) = stored st))
  ∧ (Forall notReset es → synced st → synced (run st es))
  ∧ (∀ d, stored (handle st (EvResetDemo d)) = None
          ∧ kids (handle st (EvResetDemo d)) = [hannah; morgan]
          ∧ attendance (handle st (EvResetDemo d)) = {[ d := ∅ ]}).
Proof.
  split_and!; [apply handle_synced_or_same| |done].
  intros Hnr Hs. induction es as [|e' es IH] using rev_ind; [done|].
  apply Forall_snoc_inv in Hnr as [Hes He'].
  rewrite run_snoc.
  destruct (handle_synced_or_same (run st es) e' He') as [H|(Hk & Ha & Hst)];
    [done|].
  specialize (IH Hes). unfold synced in *. by rewrite Hk, Ha, Hst.
Qed.

Lemma handlers_persist_witness :
  synced (run (doCheckIn 1709539200000 seedApp (js "k1") [])
              [EvOpenAddChild; EvChildForm filledForm; EvSaveChild (js "a3f");
               EvToggleActive (js "k2"); EvCheckOut 1709541000000 (js "k1") []]).
Proof.
  apply (handlers_persist _ _ EvCancelChild); [|reflexivity].
  repeat (apply Forall_cons; split; [exact I|]). apply Forall_nil_2.
Defined.

Lemma handle_roster_prefix (st : App) (e : Event) :
  notReset e →
  List.map Child.id (kids st) `prefix_of` List.map Child.id (kids (handle st e)).
Proof.
  assert (∀ (f : Child.t → Child.t) (ks : list Child.t),
            (∀ k, Child.id (f k) = Child.id k) →
            List.map Child.id (List.map f ks) = List.map Child.id ks) as Hmap.
  { intros f ks Hf. rewrite map_map. apply map_ext. intros k. apply Hf. }
  destruct e as [now c n|now c n| |k|f| |rnd|kid|d]; simpl; try done; intros _.
  - unfold saveChild.
    destruct (_ || _); [done|].
    destruct (childMode st); simpl.
    + rewrite map_app. by apply prefix_app_r.
    + destruct (editId st) as [e|]; [|done].
      destruct (emptyStr e); [done|]. simpl.
      rewrite Hmap; [done|]. intros k. by destruct (decide _).
  - rewrite Hmap; [done|]. intros k. by destruct (decide _).
Qed.

(** X2. No handler but Reset demo data removes a child from the roster,
    moves it, or changes its id: after any sequence of events without a
    reset the ids of the roster before are a prefix of the ids of the
    roster after.  Reset demo data replaces the roster by the default
    one, whatever it held. *)
Theorem run_roster_prefix (st : App) (es : list Event) :
  (Forall notReset es →
   List.map Child.id (kids st) `prefix_of` List.map Child.id (kids (run st es))
   ∧ (length (kids st) <= length (kids (run st es)))%nat)
  ∧ (∀ d, kids (run st (es ++ [EvResetDemo d])) = [hannah; morgan]).
Proof.
  split; [|intros d; by rewrite run_snoc].
  intros Hnr.
  assert (List.map Child.id (kids st)
            `prefix_of` List.map Child.id (kids (run st es))) as Hp.
  { induction es as [|e es IH] using rev_ind; [done|].
    apply Forall_snoc_inv in Hnr as [Hes He].
    rewrite run_snoc. etrans; [exact (IH Hes)|by apply handle_roster_prefix]. }
  split; [done|].
  apply prefix_length in Hp. by rewrite !length_map in Hp.
Qed.

Lemma run_roster_prefix_witness :
  List.map Child.id (kids seedApp)
    `prefix_of`
  List.map Child.id
    (kids (run seedApp [EvOpenAddChild; EvChildForm filledForm;
                        EvSaveChild (js "a3f"); EvToggleActive (js "k1")])).
Proof.
  apply (run_roster_prefix seedApp).
  repeat (apply Forall_cons; split; [exact I|]). apply Forall_nil_2.
Defined.

Lemma handle_history_grows (st : App) (e : Event) (d c : jsstring) :
  notReset e →
  is_Some (recordAt (attendance st) d c) →
  is_Some (recordAt (attendance (handle st e)) d c).
Proof.
  intros Hnr Hs.
  destruct e as [now c' n|now c' n| |k|f| |rnd|kid|d']; simpl; try done.
  - rewrite recordAt_insert_day. by destruct (decide _).
  - rewrite recordAt_insert_day. by destruct (decide _).
  - unfold saveChild.
    destruct (_ || _); [done|].
    destruct (childMode st); [done|].
    destruct (editId st) as [e|]; [|done].
    by destruct (emptyStr e).
Qed.

(** X3. No handler but Reset demo data deletes an entry of the history: a
    (day, child) pair that has a record keeps one through any sequence of
    events without a reset, and the day the component writes to stays
    the one fixed when it mounted.  Reset demo data leaves no record. *)
Theorem run_history_grows (st : App) (es : list Event) (d c : jsstring) :
  (Forall notReset es →
   is_Some (recordAt (attendance st) d c) →
   is_Some (recordAt (attendance (run st es)) d c)
   ∧ dateKey (run st es) = dateKey st)
  ∧ (∀ d', recordAt (attendance (run st (es ++ [EvResetDemo d']))) d c = None).
Proof.
  split.
  - intros Hnr Hs. split; [|by apply run_dateKey].
    induction es as [|e es IH] using rev_ind; [done|].
    apply Forall_snoc_inv in Hnr as [Hes He].
    rewrite run_snoc. apply handle_history_grows; [done|]. by apply IH.
  - intros d'. rewrite run_snoc. unfold recordAt. simpl.
    destruct (decide (d' = d)) as [->|Hne].
    + by rewrite lookup_singleton_eq.
    + by rewrite lookup_singleton_ne.
Qed.

Lemma run_history_grows_witness :
  is_Some (recordAt (attendance
                       (run (mkApp (js "2024-03-06") [morgan] twoDays None
                                   false ADD None emptyForm)
                            [EvCheckIn 1709712000000 (js "k2") [];
                             EvToggleActive (js "k2")]))
                    (js "2024-03-04") (js "k2")).
Proof.
  apply (run_history_grows
           (mkApp (js "2024-03-06") [morgan] twoDays None false ADD None emptyForm)).
  - repeat (apply Forall_cons; split; [exact I|]). apply Forall_nil_2.
  - vm_compute. eauto.
Defined.

(** ** Records written by the transitions *)

Lemma minutesBetween_nonneg (s e : option Z) (m : Z) :
  minutesBetween s e = Some m → 0 <= m.
Proof.
  unfold minutesBetween. destruct (_ || _); [done|].
  destruct s as [s|], e as [e|]; try done.
  destruct (Z.ltb_spec (e - s) 0); [done|].
  intros [= <-]. rewrite Math_round_minutes.
  unfold spec_round_minutes. apply Z.div_pos; lia.
Qed.

Lemma sessionRecord_total_nonneg (a : Attendance.t) (m : Z) :
  sessionRecord a → Attendance.totalMinutes a = Some m → 0 <= m.
Proof.
  unfold sessionRecord. destruct (Attendance.status a).
  - intros (_ & _ & ->). done.
  - intros (out & _ & ->) [= <-].
    destruct (minutesBetween _ _) as [m|] eqn:Hm; simpl; [|done].
    by eapply minutesBetween_nonneg.
Qed.

Lemma empty_day_no_record (d d' c : jsstring) :
  recordAt ({[ d := ∅ ]} : gmap jsstring (gmap jsstring Attendance.t)) d' c = None.
Proof.
  unfold recordAt. destruct (decide (d = d')) as [->|Hne].
  - by rewrite lookup_singleton_eq.
  - by rewrite lookup_singleton_ne.
Qed.

Lemma handle_sessionRecords (st : App) (e : Event) :
  allRecords sessionRecord (attendance st) →
  allRecords sessionRecord (attendance (handle st e)).
Proof.
  intros Hall.
  destruct e as [now c n|now c n| |k|f| |rnd|kid|d0]; simpl; try done.
  - intros d c' a. rewrite recordAt_insert_day.
    destruct (decide _); [|apply Hall].
    intros [= <-]. unfold sessionRecord; simpl. eauto.
  - intros d c' a. rewrite recordAt_insert_day.
    destruct (decide _); [|apply Hall].
    intros [= <-]. unfold sessionRecord; simpl. eauto.
  - unfold saveChild.
    destruct (_ || _); [done|].
    destruct (childMode st); [done|].
    destruct (editId st) as [e|]; [|done].
    by destruct (emptyStr e).
  - intros d c' a. by rewrite empty_day_no_record.
Qed.

(** X4. The records keep the shape the transitions write through any sequence
    of events: a PRESENT record has a check-in time and no check-out time
    or total, an ABSENT record has a check-out time and the total
    [minutesBetween] gives for its two times (0 when undefined).  In such
    a history no total is negative. *)
Theorem run_sessionRecords (st : App) (es : list Event) :
  allRecords sessionRecord (attendance st) →
  allRecords sessionRecord (attendance (run st es))
  ∧ ∀ d c a m, recordAt (attendance (run st es)) d c = Some a →
               Attendance.totalMinutes a = Some m → 0 <= m.
Proof.
  intros Hall.
  assert (allRecords sessionRecord (attendance (run st es))) as Hrun.
  { induction es as [|e es IH] using rev_ind; [done|].
    rewrite run_snoc. by apply handle_sessionRecords. }
  split; [done|].
  intros d c a m Ha. apply sessionRecord_total_nonneg. by eapply Hrun.
Qed.

Lemma run_sessionRecords_witness :
  allRecords sessionRecord
             (attendance (run seedApp
                              [EvCheckIn 1709539200000 (js "k1") [];
                               EvCheckOut 1709539100000 (js "k1") [];
                               EvCheckOut 1709539300000 (js "k2") []])).
Proof.
  apply (run_sessionRecords seedApp).
  intros d c a Ha. unfold recordAt, seedApp in Ha; simpl in Ha.
  destruct (decide (d = js "2024-03-04")) as [->|Hd].
  - rewrite lookup_singleton_eq in Ha. simpl in Ha. by rewrite lookup_empty in Ha.
  - by rewrite lookup_singleton_ne in Ha.
Defined.

(** ** Composition of the transitions *)

(** X5. A check-in followed by a check-out of the same child leaves a record
    that depends on the two calls only, not on the history before: the
    times and notes of the two calls, and the minutes between the two
    times (0 when the clock went backwards or read 0).  A session the day
    held before for that child is gone. *)
Theorem checkIn_checkOut_session (t1 t2 : Z) (st : App) (c n1 n2 : jsstring) :
  recordAt (attendance (doCheckOut t2 (doCheckIn t1 st c n1) c n2)) (dateKey st) c
  = Some (Attendance.mk ABSENT (Some t1) (Some t2)
            (Some (default 0 (minutesBetween (Some t1) (Some t2))))
            (Some n1) (Some n2)).
Proof.
  unfold doCheckOut. simpl. rewrite recordAt_insert_day, decide_True by done.
  unfold dayMap, doCheckIn. simpl.
  rewrite lookup_insert_eq. simpl. rewrite lookup_insert_eq. simpl.
  by rewrite !orEmpty_id.
Qed.

Lemma applyNote_attendance (t : NoteType) (now : Z) (st : App) (c n : jsstring) :
  ∃ a, applyNote t now st c n
       = commit st (kids st)
           (<[dateKey st := <[c := a]> (default ∅ (attendance st !! dateKey st))]>
              (attendance st))
       ∧ a = match t with
             | CHECK_IN =>
                 Attendance.mk PRESENT (Some now) None None (Some (orEmpty n)) (Some [])
             | CHECK_OUT =>
                 let existing := recordAt (attendance st) (dateKey st) c in
                 Attendance.mk ABSENT (existing ≫= Attendance.checkInMs) (Some now)
                   (Some (default 0 (minutesBetween
                                       (existing ≫= Attendance.checkInMs) (Some now))))
                   (Some (orEmptyOpt (existing ≫= Attendance.checkInNote)))
                   (Some (orEmpty n))
             end.
Proof.
  destruct t; eexists; (split; [reflexivity|]); [done|].
  unfold dayMap, recordAt. by destruct (attendance st !! dateKey st).
Qed.

(** X6. Transitions of two different children commute: the state after both
    is the same in either order, for check-ins and check-outs alike. *)
Theorem transitions_commute (t1 t2 : NoteType) (now1 now2 : Z) (st : App)
    (c1 c2 n1 n2 : jsstring) :
  c1 ≠ c2 →
  applyNote t2 now2 (applyNote t1 now1 st c1 n1) c2 n2
  = applyNote t1 now1 (applyNote t2 now2 st c2 n2) c1 n1.
Proof.
  intros Hne.
  destruct (applyNote_attendance t1 now1 st c1 n1) as (a1 & E1 & Ha1).
  destruct (applyNote_attendance t2 now2 st c2 n2) as (a2 & E2 & Ha2).
  destruct (applyNote_attendance t2 now2 (applyNote t1 now1 st c1 n1) c2 n2)
    as (a2' & E21 & Ha2').
  destruct (applyNote_attendance t1 now1 (applyNote t2 now2 st c2 n2) c1 n1)
    as (a1' & E12 & Ha1').
  assert (a2' = a2) as ->.
  { rewrite Ha2', Ha2, E1. simpl.
    rewrite recordAt_insert_day, decide_False; [done|]. by intros [_ ?]. }
  assert (a1' = a1) as ->.
  { rewrite Ha1', Ha1, E2. simpl.
    rewrite recordAt_insert_day, decide_False; [done|]. by intros [_ ?]. }
  rewrite E21, E12, E1, E2. unfold commit, saveState, setAttendance, setKids. simpl.
  rewrite !lookup_insert_eq. simpl. rewrite !insert_insert_eq.
  by rewrite (insert_insert_ne _ c1 c2).
Qed.

Lemma transitions_commute_witness :
  doCheckOut 1709541000000
             (doCheckIn 1709539200000 seedApp (js "k1") []) (js "k2") []
  = doCheckIn 1709539200000
              (doCheckOut 1709541000000 seedApp (js "k2") []) (js "k1") [].
Proof.
  apply (transitions_commute CHECK_IN CHECK_OUT). discriminate.
Defined.

(** ** The roster *)

Lemma default_roster_shape : Forall savedShape [hannah; morgan].
Proof.
  assert (savedShape hannah ∧ savedShape morgan) as [Hh Hm].
  { split; (split_and!; [reflexivity | discriminate | reflexivity | discriminate
                         | reflexivity | discriminate | by eexists]). }
  exact (Forall_cons_2 _ _ _ Hh (Forall_cons_2 _ _ _ Hm (Forall_nil_2 _))).
Qed.

Lemma handle_savedShape (st : App) (e : Event) :
  Forall savedShape (kids st) → Forall savedShape (kids (handle st e)).
Proof.
  intros Hall.
  destruct e as [now c n|now c n| |k|f| |rnd|kid|d0]; simpl; try done;
    [| |apply default_roster_shape].
  - unfold saveChild.
    destruct (emptyStr (trim (ChildForm.firstName (childForm st)))) eqn:Hf; [done|].
    destruct (emptyStr (trim (ChildForm.lastName (childForm st)))) eqn:Hl; [done|].
    destruct (emptyStr (trim (ChildForm.guardian (childForm st)))) eqn:Hg; [done|].
    apply emptyStr_false in Hf, Hl, Hg. simpl.
    assert (∀ i act, savedShape
              (Child.mk i (trim (ChildForm.firstName (childForm st)))
                        (trim (ChildForm.lastName (childForm st))) act
                        (trim (ChildForm.guardian (childForm st)))
                        (Some (trim (ChildForm.allergies (childForm st)))))) as Hnew.
    { intros i act. unfold savedShape; simpl. rewrite !trim_idempotent.
      split_and!; try done. eexists. split; [done|apply trim_idempotent]. }
    destruct (childMode st); simpl.
    + apply Forall_app. split; [done|]. by constructor.
    + destruct (editId st) as [e|]; [|done].
      destruct (emptyStr e); [done|]. simpl.
      induction Hall as [|x ks Hx Hks IH]; simpl; constructor; [|done].
      by destruct (decide _).
  - induction Hall as [|x ks Hx Hks IH]; simpl; constructor; [|done].
    by destruct (decide _).
Qed.

(** X7. The dialog keeps the roster well-formed: when every child has trimmed,
    non-empty names and guardian and trimmed allergies, so has every
    child after any sequence of events, added and edited ones included. *)
Theorem run_savedShape (st : App) (es : list Event) :
  Forall savedShape (kids st) → Forall savedShape (kids (run st es)).
Proof.
  intros Hall. induction es as [|e es IH] using rev_ind; [done|].
  rewrite run_snoc. by apply handle_savedShape.
Qed.

Lemma run_savedShape_witness :
  Forall savedShape
         (kids (run seedApp
                    [EvOpenAddChild; EvChildForm filledForm; EvSaveChild (js "a3f");
                     EvOpenEditChild hannah; EvChildForm filledForm;
                     EvSaveChild (js "b07")])).
Proof.
  apply (run_savedShape seedApp).
  assert (savedShape hannah ∧ savedShape morgan) as [Hh Hm].
  { split; (split_and!; [reflexivity | discriminate | reflexivity | discriminate
                         | reflexivity | discriminate | by eexists]). }
  exact (Forall_cons_2 _ _ _ Hh (Forall_cons_2 _ _ _ Hm (Forall_nil_2 _))).
Defined.

(** X8. Saving in EDIT mode keeps the roster position by position: a child
    whose id is not the edited id is the same child, the others keep
    their id.  The history is the same. *)
Theorem saveChild_edit_frame (rnd : jsstring) (st : App) :
  childMode st = EDIT →
  Forall2 (fun x y => if decide (Some (Child.id x) = editId st)
                      then Child.id y = Child.id x
                      else y = x)
          (kids st) (kids (saveChild rnd st))
  ∧ attendance (saveChild rnd st) = attendance st.
Proof.
  intros Hmode.
  assert (Forall2 (fun x y => if decide (Some (Child.id x) = editId st)
                              then Child.id y = Child.id x else y = x)
                  (kids st) (kids st)) as Hsame.
  { induction (kids st) as [|x ks IH]; constructor; [|done]. by destruct (decide _). }
  unfold saveChild. rewrite Hmode.
  destruct (_ || _); [done|].
  destruct (editId st) as [e|] eqn:He; [|done].
  destruct (emptyStr e); [done|]. simpl. split; [|done].
  clear Hsame. induction (kids st) as [|x ks IH]; simpl; constructor; [|done].
  destruct (decide (Child.id x = e)) as [->|Hne].
  - by rewrite decide_True.
  - rewrite decide_False; [done|]. by intros [= ?].
Qed.

Lemma saveChild_edit_frame_witness :
  Forall2 (fun x y => if decide (Some (Child.id x) = Some (js "k1"))
                      then Child.id y = Child.id x
                      else y = x)
          [hannah; morgan]
          (kids (saveChild (js "a3f")
                   (mkApp (js "2024-03-04") [hannah; morgan] ∅ None true EDIT
                          (Some (js "k1")) filledForm))).
Proof.
  apply (saveChild_edit_frame (js "a3f")
           (mkApp (js "2024-03-04") [hannah; morgan] ∅ None true EDIT
                  (Some (js "k1")) filledForm)).
  reflexivity.
Defined.

Lemma NoDup_map_inj {A B : Type} (f : A → B) (l : list A) (x y : A) :
  NoDup (List.map f l) → x ∈ l → y ∈ l → f x = f y → x = y.
Proof.
  induction l as [|z l IH]; simpl; intros Hnd Hx Hy Hf; [by apply elem_of_nil in Hx|].
  apply NoDup_cons in Hnd as [Hz Hnd].
  apply elem_of_cons in Hx as [->|Hx]; apply elem_of_cons in Hy as [->|Hy].
  - done.
  - exfalso. apply Hz. rewrite Hf. by apply list_elem_of_In, in_map, list_elem_of_In.
  - exfalso. apply Hz. rewrite <- Hf. by apply list_elem_of_In, in_map, list_elem_of_In.
  - by apply IH.
Qed.

(** X9. Opening the editor on a child of the roster and saving at once changes
    nothing, when the ids of the roster are distinct, the id of the child
    is not empty and the child has the shape [saveChild] writes. *)
Theorem edit_then_save_unchanged (rnd : jsstring) (st : App) (k : Child.t) :
  k ∈ kids st →
  NoDup (List.map Child.id (kids st)) →
  Child.id k ≠ [] →
  savedShape k →
  kids (saveChild rnd (openEditChild st k)) = kids st
  ∧ attendance (saveChild rnd (openEditChild st k)) = attendance st
  ∧ childOpen (saveChild rnd (openEditChild st k)) = false.
Proof.
  intros Hk Hnd Hid ((Hf & Hfn) & (Hl & Hln) & (Hg & Hgn) & al & Hal & Halt).
  unfold saveChild, openEditChild. simpl. rewrite Hf, Hl, Hg, Hal. simpl.
  apply emptyStr_false in Hfn, Hln, Hgn, Hid. rewrite Hfn, Hln, Hgn, Hid. simpl.
  split_and!; try done.
  rewrite Halt. rewrite <- (map_id (kids st)) at 2.
  apply map_ext_in. intros x Hx%list_elem_of_In.
  destruct (decide (Child.id x = Child.id k)) as [Heq|Hne]; [|done].
  assert (x = k) as -> by by eapply (NoDup_map_inj Child.id).
  destruct k; simpl in *. by subst.
Qed.

Lemma edit_then_save_unchanged_witness :
  kids (saveChild (js "a3f") (openEditChild seedApp morgan)) = [hannah; morgan].
Proof.
  apply (edit_then_save_unchanged (js "a3f") seedApp morgan).
  - right. left.
  - by apply (bool_decide_unpack _).
  - discriminate.
  - repeat split; try discriminate. by eexists.
Defined.

(** X10. Archive followed by Restore (or the reverse) gives back the roster and
    leaves the history alone. *)
Theorem toggleActive_involutive (st : App) (kid : jsstring) :
  kids (toggleActive (toggleActive st kid) kid) = kids st
  ∧ attendance (toggleActive (toggleActive st kid) kid) = attendance st.
Proof.
  split; [|done]. unfold toggleActive; simpl.
  rewrite map_map. rewrite <- (map_id (kids st)) at 2.
  apply map_ext. intros x.
  destruct (decide (Child.id x = kid)) as [Heq|Hne]; simpl.
  - rewrite decide_True by done. destruct x; simpl. by rewrite negb_involutive.
  - by rewrite decide_False.
Qed.

Lemma sortInsert_map {A B : Type} (cmpA : A → A → Z) (cmpB : B → B → Z)
    (f : A → B) (x : A) (l : list A) :
  (∀ a b, cmpB (f a) (f b) = cmpA a b) →
  sortInsert cmpB (f x) (List.map f l) = List.map f (sortInsert cmpA x l).
Proof.
  intros Hf. induction l as [|y l IH]; simpl; [done|].
  rewrite Hf. destruct (cmpA x y <=? 0); simpl; [done|]. by rewrite IH.
Qed.

Lemma Array_sort_map {A B : Type} (cmpA : A → A → Z) (cmpB : B → B → Z)
    (f : A → B) (l : list A) :
  (∀ a b, cmpB (f a) (f b) = cmpA a b) →
  Array_sort cmpB (List.map f l) = List.map f (Array_sort cmpA l).
Proof.
  intros Hf. induction l as [|x l IH]; simpl; [done|].
  fold (Array_sort cmpB (List.map f l)). fold (Array_sort cmpA l).
  rewrite IH. by apply sortInsert_map.
Qed.

(** X11. Archiving or restoring a child changes nothing in the report but the
    [active] flag of the rows of that child: same rows, same order, same
    days and minutes. *)
Theorem toggleActive_report (st : App) (kid : jsstring) :
  reportRows (kids (toggleActive st kid)) (attendance (toggleActive st kid))
  = List.map (fun r => if decide (Row.id r = kid)
                       then Row.mk (Row.id r) (Row.name r) (Row.days r)
                                   (Row.minutes r) (negb (Row.active r))
                       else r)
             (reportRows (kids st) (attendance st)).
Proof.
  unfold reportRows, toggleActive; simpl.
  rewrite <- (Array_sort_map byMinutesDesc byMinutesDesc).
  - f_equal. rewrite !map_map. apply map_ext. intros x.
    unfold rowOf.
    destruct (decide (Child.id x = kid)) as [Heq|Hne]; simpl.
    + by rewrite decide_True.
    + by rewrite decide_False.
  - intros a b. unfold byMinutesDesc.
    by destruct (decide (Row.id a = kid)), (decide (Row.id b = kid)).
Qed.

Section RosterProofs.
Variable localeCompare : jsstring -> jsstring -> Z.

Lemma sortInsert_activeBefore (x : Child.t) (l : list Child.t) :
  StronglySorted activeBefore l →
  StronglySorted activeBefore (sortInsert (rosterCompare localeCompare) x l).
Proof.
  induction 1 as [|y l Hs IH Hy]; simpl.
  - repeat constructor.
  - destruct (Z.leb_spec (rosterCompare localeCompare x y) 0) as [Hle|Hgt].
    + constructor; [by constructor|].
      assert (activeBefore x y) as Hxy.
      { unfold activeBefore, rosterCompare in *.
        destruct (Child.isActive x), (Child.isActive y); simpl in *; try done; lia. }
      constructor; [done|].
      eapply Forall_impl; [exact Hy|]. unfold activeBefore in *. simpl.
      intros z Hyz Hz. by apply Hxy, Hyz.
    + constructor; [done|].
      rewrite sortInsert_perm. constructor; [|done].
      unfold activeBefore, rosterCompare in *.
      destruct (Child.isActive x), (Child.isActive y); simpl in *; try done; lia.
Qed.

(** X12. The roster list shows every child of the roster once, the active
    children before the archived ones, whatever the locale orders names. *)
Theorem rosterView_active_first (kids : list Child.t) :
  rosterView localeCompare kids ≡ₚ kids
  ∧ StronglySorted activeBefore (rosterView localeCompare kids).
Proof.
  split; [apply Array_sort_perm|].
  unfold rosterView. induction kids as [|x ks IH]; simpl; [constructor|].
  by apply sortInsert_activeBefore.
Qed.
End RosterProofs.

(** ** Notes *)

Lemma startsWith_extend (x z t : jsstring) :
  startsWith x t = true → startsWith (x ++ z) t = true.
Proof.
  revert x. induction t as [|b t IH]; intros x; simpl; [done|].
  destruct x as [|a x]; simpl; [done|].
  destruct (a =? b)%N; simpl; [apply IH|done].
Qed.

Lemma includes_extend (x z t : jsstring) :
  includes x t = true → includes (x ++ z) t = true.
Proof.
  induction x as [|a x IH]; simpl.
  - rewrite orb_false_r. intros Hs. destruct t; [|done].
    by destruct z.
  - intros [Hs|Hi]%orb_true_iff.
    + pose proof (startsWith_extend (a :: x) z t Hs) as Hs'.
      simpl in Hs'. by rewrite Hs'.
    + rewrite IH by done. apply orb_true_r.
Qed.

Lemma includes_empty (s : jsstring) : includes s [] = true.
Proof. by destruct s. Qed.

Section MoreNoteProofs.
Variable toLowerCase : jsstring -> jsstring.

Lemma appendNote_cases (c a : jsstring) :
  (trim a = [] ∧ appendNote toLowerCase c a = trim c)
  ∨ (trim a ≠ [] ∧ trim c = [] ∧ appendNote toLowerCase c a = trim a)
  ∨ (trim a ≠ [] ∧ trim c ≠ []
     ∧ includes (toLowerCase (trim c)) (toLowerCase (trim a)) = true
     ∧ appendNote toLowerCase c a = trim c)
  ∨ (trim a ≠ [] ∧ trim c ≠ []
     ∧ includes (toLowerCase (trim c)) (toLowerCase (trim a)) = false
     ∧ appendNote toLowerCase c a = trim c ++ noteSeparator ++ trim a).
Proof.
  unfold appendNote.
  destruct (emptyStr (trim a)) eqn:Ha.
  { left. by apply emptyStr_true in Ha. }
  apply emptyStr_false in Ha.
  destruct (emptyStr (trim c)) eqn:Hc.
  { right; left. by apply emptyStr_true in Hc. }
  apply emptyStr_false in Hc.
  destruct (includes _ _) eqn:Hi; [right; right; left|right; right; right]; done.
Qed.

Lemma appendNote_includes (c a : jsstring) :
  lowerAfterSeparator toLowerCase → trim a ≠ [] →
  includes (toLowerCase (appendNote toLowerCase c a))
           (toLowerCase (trim a)) = true.
Proof.
  intros Hsep Hne.
  destruct (appendNote_cases c a)
    as [(Ha & _)|[(Ha & Hc & ->)|[(Ha & Hc & Hi & ->)|(Ha & Hc & Hi & ->)]]].
  - done.
  - apply includes_self.
  - done.
  - by apply includes_after_separator.
Qed.

Lemma appendNote_prefix (c a : jsstring) :
  trim c ≠ [] → trim c `prefix_of` appendNote toLowerCase c a.
Proof.
  intros Hne.
  destruct (appendNote_cases c a)
    as [(Ha & ->)|[(Ha & Hc & ->)|[(Ha & Hc & Hi & ->)|(Ha & Hc & Hi & ->)]]];
    try done.
  by apply prefix_app_r.
Qed.

(** X13. The merged note has no white space at either end, whatever the two
    inputs carry; when the current note is not blank it is kept, trimmed,
    at the start of the result, and a blank current note gives the
    trimmed addition. *)
Theorem appendNote_shape (c a : jsstring) :
  trim (appendNote toLowerCase c a) = appendNote toLowerCase c a
  ∧ headKept (appendNote toLowerCase c a) = true
  ∧ headKept (rev (appendNote toLowerCase c a)) = true
  ∧ (trim c ≠ [] → trim c `prefix_of` appendNote toLowerCase c a)
  ∧ (trim c = [] → appendNote toLowerCase c a = trim a).
Proof.
  split_and!.
  - apply appendNote_trimmed.
  - rewrite <- appendNote_trimmed. apply headKept_trim.
  - rewrite <- appendNote_trimmed. apply lastKept_trim.
  - apply appendNote_prefix.
  - intros Hc.
    destruct (appendNote_cases c a)
      as [(Ha & ->)|[(Ha & _ & ->)|[(Ha & Hc' & _)|(Ha & Hc' & _)]]];
      try done. by rewrite Ha, Hc.
Qed.

(** X14. After the merge of an addition that is not blank the note contains
    the trimmed addition, up to case, for a lower-casing that treats what
    follows the separator as it treats it on its own, as [toLowerCase]
    does; when the addition was not in a non-blank current note before,
    it is the end of the result, after the separator. *)
Theorem appendNote_contains_addition (c a : jsstring) :
  lowerAfterSeparator toLowerCase →
  trim a ≠ [] →
  includes (toLowerCase (appendNote toLowerCase c a))
           (toLowerCase (trim a)) = true
  ∧ (includes (toLowerCase (trim c)) (toLowerCase (trim a)) = false →
     trim c ≠ [] →
     appendNote toLowerCase c a = trim c ++ noteSeparator ++ trim a).
Proof.
  intros Hsep Hne. split; [by apply appendNote_includes|].
  intros Hi Hc.
  destruct (appendNote_cases c a)
    as [(Ha & _)|[(Ha & Hc' & _)|[(Ha & _ & Hi' & _)|(Ha & _ & _ & ->)]]];
    try done. congruence.
Qed.

Lemma foldl_appendNote_includes (qs : list jsstring) (n t : jsstring) :
  lowerBeforeSeparator toLowerCase →
  n ≠ [] → trim n = n →
  includes (toLowerCase n) t = true →
  includes (toLowerCase (foldl (appendNote toLowerCase) n qs)) t = true.
Proof.
  intros Hsep. revert n.
  induction qs as [|q qs IH]; intros n Hn Htr Hi; simpl; [done|].
  apply IH.
  - pose proof (appendNote_prefix n q) as Hp. rewrite Htr in Hp.
    destruct (Hp Hn) as [z ->]. by destruct n.
  - apply appendNote_trimmed.
  - destruct (appendNote_cases n q)
      as [(Ha & ->)|[(Ha & Hc & _)|[(Ha & Hc & _ & ->)|(Ha & Hc & _ & ->)]]];
      rewrite ?Htr in *; try done.
    destruct (Hsep n (trim q)) as [s ->]. by apply includes_extend.
Qed.

(** X15. Quick notes that are not blank, tapped one after the other, are all
    in the note at the end, up to case: no later tap removes an earlier
    fragment.  This holds for a lower-casing that treats what precedes
    and what follows the separator as it treats them on their own, as
    [toLowerCase] does.  Tapping never changes the pending action. *)
Theorem quickNotes_all_kept (m : NoteModal.t) (qs : list jsstring) (q : jsstring) :
  lowerAfterSeparator toLowerCase →
  lowerBeforeSeparator toLowerCase →
  q ∈ qs →
  trim q ≠ [] →
  includes
    (toLowerCase
       (NoteModal.noteText (foldl (tapQuickNote toLowerCase) m qs)))
    (toLowerCase (trim q)) = true
  ∧ NoteModal.pending (foldl (tapQuickNote toLowerCase) m qs) = NoteModal.pending m.
Proof.
  intros Hafter Hbefore.
  assert (∀ qs m, NoteModal.noteText (foldl (tapQuickNote toLowerCase) m qs)
                  = foldl (appendNote toLowerCase) (NoteModal.noteText m) qs
                  ∧ NoteModal.pending (foldl (tapQuickNote toLowerCase) m qs)
                    = NoteModal.pending m) as Hfold.
  { clear. induction qs as [|q qs IH]; intros m; simpl; [done|].
    destruct (IH (tapQuickNote toLowerCase m q)) as [-> ->]. done. }
  intros Hq Hq0. destruct (Hfold qs m) as [-> ->]. split; [|done].
  generalize (NoteModal.noteText m). clear m Hfold.
  induction qs as [|q' qs IH]; intros n; [by apply elem_of_nil in Hq|].
  simpl. apply elem_of_cons in Hq as [<-|Hq]; [|by apply IH].
  apply foldl_appendNote_includes; [done| | |].
  - apply emptyStr_false, appendNote_nonEmpty. by apply emptyStr_false.
  - apply appendNote_trimmed.
  - by apply appendNote_includes.
Qed.
End MoreNoteProofs.

Lemma appendNote_shape_witness :
  js "Runny nose" `prefix_of`
    appendNote sigmaToLowerCase (js "  Runny nose ") (js "Needs wipes  ").
Proof.
  apply (appendNote_shape sigmaToLowerCase (js "  Runny nose ") (js "Needs wipes  ")).
  discriminate.
Defined.

Lemma appendNote_contains_addition_witness :
  appendNote sigmaToLowerCase [913%N; 931%N] [32%N; 963%N]
  = [913%N; 931%N] ++ noteSeparator ++ [963%N].
Proof.
  apply (appendNote_contains_addition sigmaToLowerCase [913%N; 931%N] [32%N; 963%N]);
    [apply sigma_lowerAfterSeparator | discriminate | reflexivity | discriminate].
Defined.

Lemma quickNotes_all_kept_witness :
  includes
    (sigmaToLowerCase
       (NoteModal.noteText
          (foldl (tapQuickNote sigmaToLowerCase) (openNote (js "k1") CHECK_OUT)
                 [js "Picked up by Mom"; js "No nap"; js "Ate well"])))
    (sigmaToLowerCase (trim (js "No nap"))) = true.
Proof.
  apply (quickNotes_all_kept sigmaToLowerCase);
    [apply sigma_lowerAfterSeparator | apply sigma_lowerBeforeSeparator
     | right; left | discriminate].
Defined.

(** ** The rows of the Today tab *)

(** X16. The button of a row, then any typing and quick notes, then Save: the
    child is present afterwards exactly when it was not before.  The note
    dialog is closed, and the roster is the same. *)
Theorem rowButton_toggles_presence (toLowerCase : jsstring -> jsstring) (now : Z)
    (st : App) (k : Child.t) (typed : jsstring) (qs : list jsstring) :
  let m := foldl (tapQuickNote toLowerCase) (setNoteText (rowButton st k) typed) qs in
  presentToday (confirmNote now st m).1 k = negb (presentToday st k)
  ∧ NoteModal.noteOpen (confirmNote now st m).2 = false
  ∧ NoteModal.pending (confirmNote now st m).2 = None
  ∧ kids (confirmNote now st m).1 = kids st.
Proof.
  intros m.
  assert (NoteModal.pending m
          = Some (Child.id k, if presentToday st k then CHECK_OUT else CHECK_IN))
    as Hp.
  { assert (∀ qs m0, NoteModal.pending (foldl (tapQuickNote toLowerCase) m0 qs)
                     = NoteModal.pending m0) as Hfold.
    { clear. induction qs as [|q qs IH]; intros m0; simpl; [done|]. by rewrite IH. }
    unfold m. rewrite Hfold. unfold rowButton. by destruct (presentToday st k). }
  unfold confirmNote. rewrite Hp. simpl.
  split_and!; try done.
  - unfold presentToday at 1, dayMap.
    destruct (presentToday st k); simpl;
      rewrite lookup_insert_eq; simpl; by rewrite lookup_insert_eq.
  - by destruct (presentToday st k).
Qed.

(** ** The report and the transitions *)

Lemma countIf_bounds {A : Type} (p : A → bool) (l : list A) :
  0 <= countIf p l <= Z.of_nat (length l).
Proof.
  unfold countIf. induction l as [|x l IH]; [simpl; lia|].
  change (length (x :: l)) with (S (length l)). rewrite Nat2Z.inj_succ.
  change (sumZ (List.map (fun x => if p x then 1 else 0) (x :: l)))
    with ((if p x then 1 else 0) + sumZ (List.map (fun x => if p x then 1 else 0) l)).
  destruct (p x); lia.
Qed.

Lemma sumZ_app (l1 l2 : list Z) : sumZ (l1 ++ l2) = sumZ l1 + sumZ l2.
Proof. induction l1 as [|x l1 IH]; simpl; [done|]. rewrite IH. lia. Qed.

Lemma length_omap_le {A B : Type} (f : A → option B) (l : list A) :
  (length (omap f l) <= length l)%nat.
Proof.
  induction l as [|x l IH]; csimpl; [done|].
  destruct (f x); csimpl; lia.
Qed.

Lemma elem_of_recordsOf (att : gmap jsstring (gmap jsstring Attendance.t))
    (c : jsstring) (a : Attendance.t) :
  a ∈ recordsOf att c → ∃ d, recordAt att d c = Some a.
Proof.
  unfold recordsOf. intros (dm & Hdm & Ha)%list_elem_of_omap.
  apply list_elem_of_fmap in Hdm as ([d dm'] & -> & Hin).
  apply elem_of_map_to_list in Hin. exists d. unfold recordAt. by rewrite Hin.
Qed.

Lemma sumZ_nonneg (l : list Z) : Forall (fun z => 0 <= z) l → 0 <= sumZ l.
Proof. induction 1; simpl; lia. Qed.

Lemma positive_minutes_counted (l : list Attendance.t) :
  Forall (fun a => 0 <= minsOf a) l →
  0 < sumZ (List.map minsOf l) → 1 <= countIf countsAsPresent l.
Proof.
  unfold countIf. induction 1 as [|a l Ha Hl IH]; simpl; [lia|].
  intros Hpos.
  pose proof (countIf_bounds countsAsPresent l) as Hb. unfold countIf in Hb.
  destruct (Z.ltb_spec 0 (minsOf a)) as [Hlt|Hle].
  - assert (countsAsPresent a = true) as ->; [|lia].
    unfold countsAsPresent. apply Z.ltb_lt in Hlt. by rewrite Hlt, !orb_true_r.
  - destruct (countsAsPresent a); [lia|]. apply IH. lia.
Qed.

(** X17. Bounds on a row of the report: the day count is between 0 and the
    number of days of the history.  When no stored total is negative,
    the minutes are not negative, and a child with minutes has at least
    one day. *)
Theorem reportRows_bounds (kids : list Child.t)
    (att : gmap jsstring (gmap jsstring Attendance.t)) (r : Row.t) :
  r ∈ reportRows kids att →
  0 <= Row.days r <= Z.of_nat (size att)
  ∧ ((∀ d c a, recordAt att d c = Some a → 0 <= minsOf a) →
     0 <= Row.minutes r ∧ (0 < Row.minutes r → 1 <= Row.days r)).
Proof.
  intros (k & Hk & ->)%elem_of_reportRows. rewrite rowOf_totals. simpl.
  unfold spec_days, spec_minutes. split.
  - pose proof (countIf_bounds countsAsPresent (recordsOf att (Child.id k))) as Hb.
    assert (length (recordsOf att (Child.id k)) <= size att)%nat.
    { unfold recordsOf. etrans; [apply length_omap_le|].
      by rewrite length_fmap, length_map_to_list. }
    lia.
  - intros Hnn.
    assert (Forall (fun a => 0 <= minsOf a) (recordsOf att (Child.id k))) as Hall.
    { apply Forall_forall. intros a [d Ha]%elem_of_recordsOf. by eapply Hnn. }
    split.
    + apply sumZ_nonneg. apply Forall_forall.
      intros z (a & <- & Ha%list_elem_of_In)%list_elem_of_In%in_map_iff.
      by eapply Forall_forall in Hall.
    + by apply positive_minutes_counted.
Qed.

Lemma reportRows_bounds_witness :
  0 <= 2 <= Z.of_nat (size twoDays).
Proof.
  apply (reportRows_bounds [hannah; morgan] twoDays
           (Row.mk (js "k2") (js "Morgan C.") 2 105 true)).
  vm_compute. constructor.
Defined.

Lemma recordsOf_insert (att : gmap jsstring (gmap jsstring Attendance.t))
    (d c : jsstring) (x : gmap jsstring Attendance.t) :
  recordsOf (<[d := x]> att) c
  ≡ₚ option_list (x !! c) ++ recordsOf (delete d att) c.
Proof.
  unfold recordsOf. rewrite <- insert_delete_eq.
  rewrite map_to_list_insert by apply lookup_delete_eq.
  rewrite fmap_cons. simpl. by destruct (x !! c).
Qed.

Lemma recordsOf_delete (att : gmap jsstring (gmap jsstring Attendance.t))
    (d c : jsstring) :
  recordsOf att c
  ≡ₚ option_list (recordAt att d c) ++ recordsOf (delete d att) c.
Proof.
  unfold recordAt. destruct (att !! d) as [dm|] eqn:Hd; simpl.
  - unfold recordsOf.
    trans (omap (fun dm0 : gmap jsstring Attendance.t => dm0 !! c)
                ((d, dm) :: map_to_list (delete d att)).*2).
    + by rewrite (map_to_list_delete att d dm Hd).
    + rewrite fmap_cons. simpl. by destruct (dm !! c).
  - by rewrite delete_id.
Qed.

(** The history after a transition, as far as the report of one child
    sees it: the record of the day is replaced, the other days stay. *)
Lemma recordsOf_applyNote (t : NoteType) (now : Z) (st : App) (c n c' : jsstring) :
  option_list (recordAt (attendance st) (dateKey st) c')
    ++ recordsOf (attendance (applyNote t now st c n)) c'
  ≡ₚ option_list (recordAt (attendance (applyNote t now st c n)) (dateKey st) c')
    ++ recordsOf (attendance st) c'.
Proof.
  destruct (applyNote_attendance t now st c n) as (a & -> & _). simpl.
  rewrite (recordsOf_delete (attendance st) (dateKey st) c').
  rewrite recordsOf_insert, recordAt_insert_day.
  destruct (decide (c = c')) as [->|Hne].
  - rewrite decide_True by done. rewrite lookup_insert_eq. simpl.
    symmetry. apply Permutation_middle.
  - rewrite decide_False by (by intros [_ ?]).
    rewrite lookup_insert_ne by done.
    replace (default ∅ (attendance st !! dateKey st) !! c')
      with (recordAt (attendance st) (dateKey st) c').
    + done.
    + unfold recordAt. by destruct (attendance st !! dateKey st).
Qed.

(** X18. A check-in or check-out of one child leaves the rows of every other
    child in the report as they were. *)
Theorem transition_report_others (t : NoteType) (now : Z) (st : App)
    (c n : jsstring) (r : Row.t) :
  Row.id r ≠ c →
  r ∈ reportRows (kids (applyNote t now st c n)) (attendance (applyNote t now st c n))
  ↔ r ∈ reportRows (kids st) (attendance st).
Proof.
  intros Hne.
  assert (kids (applyNote t now st c n) = kids st) as -> by by destruct t.
  rewrite !elem_of_reportRows.
  assert (∀ k, Child.id k ≠ c →
               rowOf (totalsOf (attendance (applyNote t now st c n))) k
               = rowOf (totalsOf (attendance st)) k) as Hrow.
  { intros k Hk. rewrite !rowOf_totals. unfold spec_days, spec_minutes.
    pose proof (recordsOf_applyNote t now st c n (Child.id k)) as Hp.
    destruct (applyNote_attendance t now st c n) as (a & E & _).
    rewrite E in Hp at 2. simpl in Hp.
    rewrite recordAt_insert_day, decide_False in Hp by (by intros [_ ?]).
    apply Permutation_app_inv_l in Hp.
    rewrite (countIf_perm _ _ _ Hp).
    by rewrite (sumZ_perm _ _ (Permutation_map minsOf Hp)). }
  split; intros (k & Hk & ->); exists k; (split; [done|]).
  - apply Hrow. intros Hid. apply Hne. rewrite rowOf_totals. done.
  - symmetry. apply Hrow. intros Hid. apply Hne. rewrite rowOf_totals. done.
Qed.

Lemma transition_report_others_witness :
  Row.mk (js "k2") (js "Morgan C.") 2 105 true
  ∈ reportRows
      (kids (applyNote CHECK_IN 1709712000000
               (mkApp (js "2024-03-05") [hannah; morgan] twoDays None
                      false ADD None emptyForm) (js "k1") []))
      (attendance (applyNote CHECK_IN 1709712000000
               (mkApp (js "2024-03-05") [hannah; morgan] twoDays None
                      false ADD None emptyForm) (js "k1") [])).
Proof.
  apply (transition_report_others CHECK_IN 1709712000000
           (mkApp (js "2024-03-05") [hannah; morgan] twoDays None
                  false ADD None emptyForm) (js "k1") []).
  - discriminate.
  - vm_compute. constructor.
Defined.

(** X19. The row of the child after its own transition: the minutes and the
    day the record of the current day contributed before are taken out,
    those of the record just written are put in.  A check-in writes no
    minutes and counts the day, so the minutes of an earlier session of
    the day leave the total; a check-out writes the minutes between the
    check-in time found and its own time, 0 when undefined. *)
Theorem transition_report_own (t : NoteType) (now : Z) (st : App)
    (c n : jsstring) (k : Child.t) :
  Child.id k = c →
  ∃ a',
    recordAt (attendance (applyNote t now st c n)) (dateKey st) c = Some a'
    ∧ Row.minutes (rowOf (totalsOf (attendance (applyNote t now st c n))) k)
      = Row.minutes (rowOf (totalsOf (attendance st)) k)
        - from_option minsOf 0 (recordAt (attendance st) (dateKey st) c)
        + minsOf a'
    ∧ Row.days (rowOf (totalsOf (attendance (applyNote t now st c n))) k)
      = Row.days (rowOf (totalsOf (attendance st)) k)
        - (if from_option countsAsPresent false
                (recordAt (attendance st) (dateKey st) c) then 1 else 0)
        + (if countsAsPresent a' then 1 else 0)
    ∧ match t with
      | CHECK_IN => minsOf a' = 0 ∧ countsAsPresent a' = true
      | CHECK_OUT =>
          minsOf a'
          = default 0 (minutesBetween
                         (recordAt (attendance st) (dateKey st) c
                            ≫= Attendance.checkInMs) (Some now))
      end.
Proof.
  intros <-.
  pose proof (recordsOf_applyNote t now st (Child.id k) n (Child.id k)) as Hp.
  destruct (applyNote_attendance t now st (Child.id k) n) as (a & E & Ha).
  assert (recordAt (attendance (applyNote t now st (Child.id k) n))
                   (dateKey st) (Child.id k) = Some a) as Hrec.
  { rewrite E. simpl. by rewrite recordAt_insert_day, decide_True. }
  rewrite Hrec in Hp.
  exists a. split; [done|]. rewrite !rowOf_totals. simpl.
  unfold spec_days, spec_minutes.
  pose proof (sumZ_perm _ _ (Permutation_map minsOf Hp)) as Hm.
  pose proof (countIf_perm countsAsPresent _ _ Hp) as Hd.
  unfold countIf in *. rewrite !map_app, !sumZ_app in Hm, Hd.
  split_and!.
  - destruct (recordAt (attendance st) (dateKey st) (Child.id k)); simpl in *; lia.
  - destruct (recordAt (attendance st) (dateKey st) (Child.id k)); simpl in *;
      repeat destruct (countsAsPresent _); lia.
  - rewrite Ha. by destruct t.
Qed.

Lemma transition_report_own_witness :
  ∃ a',
    recordAt (attendance (applyNote CHECK_IN 1709712000000
               (mkApp (js "2024-03-05") [morgan] twoDays None
                      false ADD None emptyForm) (js "k2") []))
             (js "2024-03-05") (js "k2") = Some a'
    ∧ Row.minutes (rowOf (totalsOf (attendance (applyNote CHECK_IN 1709712000000
               (mkApp (js "2024-03-05") [morgan] twoDays None
                      false ADD None emptyForm) (js "k2") []))) morgan)
      = 105 - 60 + minsOf a'.
Proof.
  destruct (transition_report_own CHECK_IN 1709712000000
              (mkApp (js "2024-03-05") [morgan] twoDays None
                     false ADD None emptyForm) (js "k2") [] morgan)
    as (a' & Ha & Hm & _); [reflexivity|].
  exists a'. split; [exact Ha|exact Hm].
Defined.

(** ** Formatting *)

Lemma js_inj (s1 s2 : string) : js s1 = js s2 → s1 = s2.
Proof.
  unfold js. intros H.
  rewrite <- (string_of_list_ascii_of_string s1), <- (string_of_list_ascii_of_string s2).
  f_equal. revert H. generalize (list_ascii_of_string s1) (list_ascii_of_string s2).
  induction l as [|a l IH]; intros [|b l']; simpl; try done.
  intros [= Hab Hl]. f_equal; [|by apply IH].
  by rewrite <- (ascii_N_embedding a), <- (ascii_N_embedding b), Hab.
Qed.

Lemma Number_toString_inj (a b : Z) :
  Number_toString a = Number_toString b → a = b.
Proof.
  unfold Number_toString. intros H%js_inj.
  assert (∀ z, Z.to_int z ≠ Decimal.Pos Decimal.Nil
               ∧ Z.to_int z ≠ Decimal.Neg Decimal.Nil) as Hnil.
  { intros [|p|p]; simpl; split; try done; intros [= Hp];
      by apply DecimalPos.Unsigned.to_uint_nonnil in Hp. }
  apply DecimalZ.to_int_inj.
  destruct (Hnil a) as [Ha1 Ha2], (Hnil b) as [Hb1 Hb2].
  pose proof (NilZero.isi _ Ha1 Ha2) as Ea.
  pose proof (NilZero.isi _ Hb1 Hb2) as Eb.
  rewrite H in Ea. rewrite Ea in Eb. by injection Eb.
Qed.

Lemma digits_of_uint (d : Decimal.uint) :
  Forall (fun c => isDigit c = true) (js (NilEmpty.string_of_uint d)).
Proof. induction d; simpl; by repeat constructor. Qed.

Lemma Number_toString_digits (n : Z) :
  0 <= n → Forall (fun c => isDigit c = true) (Number_toString n).
Proof.
  intros Hn. unfold Number_toString.
  destruct n as [|p|p]; [by repeat constructor| |lia]. simpl.
  unfold NilZero.string_of_uint.
  destruct (Pos.to_uint p) eqn:Hp; [by repeat constructor|..];
    rewrite <- Hp; apply digits_of_uint.
Qed.

(** Two strings that start with digits and go on with a character that is
    no digit agree on the digits, the character and the rest. *)
Lemma digits_then_split (l1 l2 r1 r2 : jsstring) (c1 c2 : N) :
  Forall (fun c => isDigit c = true) l1 →
  Forall (fun c => isDigit c = true) l2 →
  isDigit c1 = false → isDigit c2 = false →
  l1 ++ c1 :: r1 = l2 ++ c2 :: r2 →
  l1 = l2 ∧ c1 = c2 ∧ r1 = r2.
Proof.
  intros H1. revert l2. induction H1 as [|x l1 Hx H1 IH]; intros l2 H2 Hc1 Hc2 Heq.
  - destruct H2 as [|y l2 Hy H2]; simpl in Heq.
    + by injection Heq.
    + injection Heq as -> _. congruence.
  - destruct H2 as [|y l2 Hy H2]; simpl in Heq.
    + injection Heq as <- _. congruence.
    + injection Heq as -> Heq. destruct (IH l2 H2 Hc1 Hc2 Heq) as (-> & -> & ->).
      done.
Qed.

(** X20. Two different totals of minutes that are not negative are shown
    differently, and none is shown as the placeholder of a missing total. *)
Theorem fmtDuration_injective (a b : Z) :
  0 <= a → 0 <= b →
  (fmtDuration (Some a) = fmtDuration (Some b) → a = b)
  ∧ fmtDuration (Some a) ≠ fmtDuration None.
Proof.
  intros Ha Hb.
  assert (∀ x, 0 <= x → 0 <= Z.rem x 60 < 60 ∧ x = 60 * (x / 60) + Z.rem x 60
               ∧ 0 <= x / 60) as Hdiv.
  { intros x Hx. rewrite Z.rem_mod_nonneg by lia.
    pose proof (Z.mod_pos_bound x 60). pose proof (Z.div_mod x 60).
    pose proof (Z.div_pos x 60). lia. }
  destruct (Hdiv a Ha) as (Hma & Ea & Hha), (Hdiv b Hb) as (Hmb & Eb & Hhb).
  pose proof (Number_toString_digits (Z.rem a 60) ltac:(lia)) as Dma.
  pose proof (Number_toString_digits (Z.rem b 60) ltac:(lia)) as Dmb.
  pose proof (Number_toString_digits (a / 60) Hha) as Dha.
  pose proof (Number_toString_digits (b / 60) Hhb) as Dhb.
  split.
  - unfold fmtDuration.
    destruct (Z.ltb_spec 0 (a / 60)) as [Hpa|Hza],
             (Z.ltb_spec 0 (b / 60)) as [Hpb|Hzb]; intros Heq.
    + simpl in Heq.
      apply digits_then_split in Heq as (Hh%Number_toString_inj & _ & Heq);
        try done.
      injection Heq as Heq.
      apply digits_then_split in Heq as (Hm%Number_toString_inj & _ & _);
        try done.
      lia.
    + simpl in Heq.
      by apply digits_then_split in Heq as (_ & Hc & _).
    + simpl in Heq.
      by apply digits_then_split in Heq as (_ & Hc & _).
    + apply digits_then_split in Heq as (Hm%Number_toString_inj & _ & _);
        try done.
      lia.
  - unfold fmtDuration.
    destruct (0 <? a / 60); intros Heq.
    + destruct Dha as [|x l Hx _]; simpl in Heq; [done|].
      injection Heq as -> _. done.
    + destruct Dma as [|x l Hx _]; simpl in Heq; [done|].
      injection Heq as -> _. done.
Qed.

Lemma fmtDuration_injective_witness :
  fmtDuration (Some 105) ≠ fmtDuration None.
Proof. apply (fmtDuration_injective 105 105); lia. Defined.

(** X21. A negative total is shown without hours, as the remainder of its
    division by 60: totals that differ by a multiple of 60 minutes are
    shown alike. *)
Theorem fmtDuration_negative (a : Z) :
  a < 0 →
  fmtDuration (Some a) = Number_toString (Z.rem a 60) ++ [109%N]
  ∧ fmtDuration (Some (a - 60)) = fmtDuration (Some a).
Proof.
  intros Ha.
  assert (∀ x, x < 0 → fmtDuration (Some x) = Number_toString (Z.rem x 60) ++ [109%N])
    as Hneg.
  { intros x Hx. unfold fmtDuration.
    destruct (Z.ltb_spec 0 (x / 60)) as [Hp|Hz]; [|done].
    pose proof (Z.div_lt_upper_bound x 60 0). lia. }
  split; [by apply Hneg|].
  rewrite !Hneg by lia. do 2 f_equal.
  assert (a - 60 = a + (-1) * 60) as -> by lia.
  apply Z.rem_add; lia.
Qed.

Lemma fmtDuration_negative_witness :
  fmtDuration (Some (-90)) = js "-30m"
  ∧ fmtDuration (Some (-90 - 60)) = fmtDuration (Some (-90)).
Proof.
  destruct (fmtDuration_negative (-90)) as [H1 H2]; [lia|].
  split; [rewrite H1; reflexivity | exact H2].
Defined.

Lemma Number_toString_1digit (n : Z) :
  0 <= n <= 9 → Number_toString n = [digit n].
Proof.
  intros Hn.
  assert (Forall (fun n => Number_toString n = [digit n]) (seqZ 0 10)) as Hall
    by (by apply (bool_decide_unpack _); vm_compute).
  eapply Forall_forall in Hall; [exact Hall|]. apply elem_of_seqZ. lia.
Qed.

Lemma Number_toString_2digits (n : Z) :
  10 <= n <= 99 → Number_toString n = [digit (n / 10); digit (n mod 10)].
Proof.
  intros Hn.
  assert (Forall (fun n => Number_toString n = [digit (n / 10); digit (n mod 10)])
                 (seqZ 10 90)) as Hall
    by (by apply (bool_decide_unpack _); vm_compute).
  eapply Forall_forall in Hall; [exact Hall|]. apply elem_of_seqZ. lia.
Qed.

Lemma Number_toString_4digits (n : Z) :
  1000 <= n <= 9999 →
  Number_toString n
  = [digit (n / 1000); digit (n / 100 mod 10); digit (n / 10 mod 10); digit (n mod 10)].
Proof.
  intros Hn.
  assert (Forall (fun n => Number_toString n
                           = [digit (n / 1000); digit (n / 100 mod 10);
                              digit (n / 10 mod 10); digit (n mod 10)])
                 (seqZ 1000 9000)) as Hall
    by (by apply (bool_decide_unpack _); vm_compute).
  eapply Forall_forall in Hall; [exact Hall|]. apply elem_of_seqZ. lia.
Qed.

Lemma padStart_2digits (n : Z) :
  0 <= n <= 99 →
  padStart 2 48 (Number_toString n) = [digit (n / 10); digit (n mod 10)].
Proof.
  intros Hn. destruct (Z_lt_le_dec n 10) as [Hlt|Hge].
  - rewrite Number_toString_1digit by lia. unfold padStart. simpl.
    rewrite Z.div_small, Z.mod_small by lia. done.
  - by rewrite Number_toString_2digits by lia.
Qed.

Lemma todayKey_digits (d : LocalDate.t) :
  fourDigitYear d →
  todayKey d
  = [digit (LocalDate.getFullYear d / 1000);
     digit (LocalDate.getFullYear d / 100 mod 10);
     digit (LocalDate.getFullYear d / 10 mod 10);
     digit (LocalDate.getFullYear d mod 10);
     45%N;
     digit ((LocalDate.getMonth d + 1) / 10);
     digit ((LocalDate.getMonth d + 1) mod 10);
     45%N;
     digit (LocalDate.getDate d / 10);
     digit (LocalDate.getDate d mod 10)].
Proof.
  intros (Hy & Hm & Hd). unfold todayKey.
  rewrite Number_toString_4digits by done.
  by rewrite !padStart_2digits by lia.
Qed.

(** X22. For a year of four digits the key of the day is ten characters: the
    digits of the year, a hyphen, the month counted from 1 on two digits,
    a hyphen, and the day of the month on two digits. *)
Theorem todayKey_shape (d : LocalDate.t) :
  fourDigitYear d →
  length (todayKey d) = 10%nat
  ∧ todayKey d
    = Number_toString (LocalDate.getFullYear d) ++ [45%N]
      ++ [digit ((LocalDate.getMonth d + 1) / 10);
          digit ((LocalDate.getMonth d + 1) mod 10)]
      ++ [45%N]
      ++ [digit (LocalDate.getDate d / 10); digit (LocalDate.getDate d mod 10)]
  ∧ Forall (fun c => isDigit c = true ∨ c = 45%N) (todayKey d).
Proof.
  intros Hv. pose proof Hv as (Hy & Hm & Hd).
  rewrite (todayKey_digits d Hv). split; [done|]. split.
  - by rewrite Number_toString_4digits.
  - assert (∀ n, 0 <= n <= 9 → isDigit (digit n) = true) as Hdig.
    { intros n Hn. unfold isDigit, digit.
      apply andb_true_iff. split; apply N.leb_le; lia. }
    repeat (apply Forall_cons; split); try apply Forall_nil_2; try (by right);
      left; apply Hdig; Z.div_mod_to_equations; lia.
Qed.

Lemma todayKey_shape_witness :
  todayKey (LocalDate.mk 2024 2 4) = js "2024-03-04".
Proof.
  destruct (todayKey_shape (LocalDate.mk 2024 2 4)) as (_ & H & _).
  - unfold fourDigitYear; simpl; lia.
  - rewrite H. reflexivity.
Defined.

Lemma decimal_digits (n : Z) :
  0 <= n <= 9999 →
  ∃ a3 a2 a1 a0,
    n / 1000 = a3 ∧ n / 100 mod 10 = a2 ∧ n / 10 mod 10 = a1 ∧ n mod 10 = a0
    ∧ n = 1000 * a3 + 100 * a2 + 10 * a1 + a0
    ∧ 0 <= a3 <= 9 ∧ 0 <= a2 <= 9 ∧ 0 <= a1 <= 9 ∧ 0 <= a0 <= 9.
Proof.
  intros Hn. do 4 eexists. split_and!; try reflexivity;
    Z.div_mod_to_equations; lia.
Qed.

Lemma decimal_2digits (n : Z) :
  0 <= n <= 99 →
  ∃ a1 a0,
    n / 10 = a1 ∧ n mod 10 = a0 ∧ n = 10 * a1 + a0
    ∧ 0 <= a1 <= 9 ∧ 0 <= a0 <= 9.
Proof.
  intros Hn. do 2 eexists. split_and!; try reflexivity;
    Z.div_mod_to_equations; lia.
Qed.

(** X23. The keys of two days with four-digit years compare, as [sort ()]
    compares strings, the way the days follow each other in the calendar;
    so two different days never share a key. *)
Theorem todayKey_order (d1 d2 : LocalDate.t) :
  fourDigitYear d1 → fourDigitYear d2 →
  (defaultCompare (todayKey d1) (todayKey d2) < 0 ↔ dateBefore d1 d2)
  ∧ (defaultCompare (todayKey d1) (todayKey d2) > 0 ↔ dateBefore d2 d1)
  ∧ (todayKey d1 = todayKey d2 → d1 = d2).
Proof.
  intros Hv1 Hv2.
  rewrite (todayKey_digits d1 Hv1), (todayKey_digits d2 Hv2).
  destruct d1 as [y1 m1 e1], d2 as [y2 m2 e2].
  unfold fourDigitYear, dateBefore in *. simpl in *.
  destruct Hv1 as (Hy1 & Hm1 & He1), Hv2 as (Hy2 & Hm2 & He2).
  destruct (decimal_digits y1 ltac:(lia))
    as (a3 & a2 & a1 & a0 & -> & -> & -> & -> & Ey1 & ? & ? & ? & ?).
  destruct (decimal_digits y2 ltac:(lia))
    as (b3 & b2 & b1 & b0 & -> & -> & -> & -> & Ey2 & ? & ? & ? & ?).
  destruct (decimal_2digits (m1 + 1) ltac:(lia)) as (p1 & p0 & -> & -> & Em1 & ? & ?).
  destruct (decimal_2digits (m2 + 1) ltac:(lia)) as (q1 & q0 & -> & -> & Em2 & ? & ?).
  destruct (decimal_2digits e1 ltac:(lia)) as (r1 & r0 & -> & -> & Ee1 & ? & ?).
  destruct (decimal_2digits e2 ltac:(lia)) as (s1 & s0 & -> & -> & Ee2 & ? & ?).
  unfold digit.
  split_and!.
  - cbn [defaultCompare].
    repeat match goal with
           | |- context [(?x <? ?y)%N] => destruct (N.ltb_spec x y)
           end; lia.
  - cbn [defaultCompare].
    repeat match goal with
           | |- context [(?x <? ?y)%N] => destruct (N.ltb_spec x y)
           end; lia.
  - intros [= ? ? ? ? ? ? ? ?]. f_equal; lia.
Qed.

Lemma todayKey_order_witness :
  defaultCompare (todayKey (LocalDate.mk 2023 11 31))
                 (todayKey (LocalDate.mk 2024 0 1)) < 0.
Proof.
  apply (todayKey_order (LocalDate.mk 2023 11 31) (LocalDate.mk 2024 0 1)).
  - unfold fourDigitYear; simpl; lia.
  - unfold fourDigitYear; simpl; lia.
  - left. simpl. lia.
Defined.

(** ** Sessions *)

Lemma reset_or_not (e : Event) : notReset e ∨ ∃ d, e = EvResetDemo d.
Proof. destruct e; try (by left). right. by eexists. Qed.

(** The stored snapshot is the state on screen, or nothing is stored and
    the screen shows the default roster and an empty day. *)
Lemma run_stored_or_default (dKey : jsstring)
    (seeded : option (list Child.t * gmap jsstring (gmap jsstring Attendance.t)))
    (es : list Event) :
  synced (run (mount dKey seeded) es)
  ∨ (stored (run (mount dKey seeded) es) = None
     ∧ kids (run (mount dKey seeded) es) = [hannah; morgan]
     ∧ attendance (run (mount dKey seeded) es)
       = {[ dateKey (run (mount dKey seeded) es) := ∅ ]}).
Proof.
  induction es as [|e es IH] using rev_ind.
  - destruct seeded as [[ks att]|]; [by left|by right].
  - rewrite run_snoc.
    destruct (reset_or_not e) as [Hnr|[d ->]]; [|by right].
    destruct (handle_synced_or_same (run (mount dKey seeded) es) e Hnr)
      as [H|(Hk & Ha & Hs)]; [by left|].
    rewrite (handle_dateKey _ _ Hnr).
    destruct IH as [IH|(Hs' & Hk' & Ha')].
    + left. unfold synced in *. by rewrite Hk, Ha, Hs.
    + right. by rewrite Hk, Ha, Hs.
Qed.

(** X24. Reloading the page on the same day gives back the roster and the
    history of the moment, after any sequence of events since the
    component mounted, with or without a stored snapshot at that time.
    The day is the one of the mount, unless Reset demo data has mounted
    the component again since. *)
Theorem reload_keeps_state (dKey : jsstring)
    (seeded : option (list Child.t * gmap jsstring (gmap jsstring Attendance.t)))
    (es : list Event) :
  let st := run (mount dKey seeded) es in
  kids (mount (dateKey st) (stored st)) = kids st
  ∧ attendance (mount (dateKey st) (stored st)) = attendance st
  ∧ (Forall notReset es → dateKey st = dKey).
Proof.
  intros st. unfold st. split_and!; [| |apply run_dateKey].
  - destruct (run_stored_or_default dKey seeded es) as [H|(Hs & Hk & Ha)].
    + unfold synced in H. by rewrite H.
    + by rewrite Hs, Hk.
  - destruct (run_stored_or_default dKey seeded es) as [H|(Hs & Hk & Ha)].
    + unfold synced in H. by rewrite H.
    + by rewrite Hs, Ha.
Qed.

Lemma reload_keeps_state_witness :
  dateKey (run (mount (js "2024-03-04") None)
               [EvCheckIn 1709539200000 (js "k1") []; EvToggleActive (js "k2")])
  = js "2024-03-04".
Proof.
  apply (reload_keeps_state (js "2024-03-04") None).
  repeat (apply Forall_cons; split; [exact I|]). apply Forall_nil_2.
Defined.

Lemma map_id_same (f : Child.t → Child.t) (ks : list Child.t) :
  (∀ k, Child.id (f k) = Child.id k) →
  List.map Child.id (List.map f ks) = List.map Child.id ks.
Proof. intros Hf. rewrite map_map. apply map_ext. intros k. apply Hf. Qed.

(** X25. The ids of a roster with distinct ids stay distinct through an event
    exactly when the event is not the saving of a valid new child whose
    generated id is already an id of the roster: no handler checks the
    generated id, so a repeated draw gives two children one id. *)
Theorem ids_stay_distinct (st : App) (e : Event) :
  NoDup (List.map Child.id (kids st)) →
  NoDup (List.map Child.id (kids (handle st e)))
  ↔ (∀ rnd, e = EvSaveChild rnd → childMode st = ADD →
            trim (ChildForm.firstName (childForm st)) ≠ [] →
            trim (ChildForm.lastName (childForm st)) ≠ [] →
            trim (ChildForm.guardian (childForm st)) ≠ [] →
            js "k_" ++ rnd ∉ List.map Child.id (kids st)).
Proof.
  intros Hnd.
  destruct e as [now c n|now c n| |k|f| |rnd|kid|d0]; simpl;
    try (split; [by intros _ rnd [=]|done]).
  - unfold saveChild.
    destruct (emptyStr (trim (ChildForm.firstName (childForm st)))) eqn:Hf.
    { apply emptyStr_true in Hf. split; [|done]. by intros _ rnd' _ _ ?. }
    destruct (emptyStr (trim (ChildForm.lastName (childForm st)))) eqn:Hl.
    { apply emptyStr_true in Hl. split; [|done]. by intros _ rnd' _ _ _ ?. }
    destruct (emptyStr (trim (ChildForm.guardian (childForm st)))) eqn:Hg.
    { apply emptyStr_true in Hg. split; [|done]. by intros _ rnd' _ _ _ _ ?. }
    apply emptyStr_false in Hf, Hl, Hg. simpl.
    destruct (childMode st) eqn:Hmode; simpl.
    + rewrite map_app. simpl. split.
      * intros Hnd' rnd' [= <-] _ _ _ _ Hin.
        apply NoDup_app in Hnd' as (_ & Hdis & _).
        apply (Hdis _ Hin). left.
      * intros Hfresh. apply NoDup_app.
        split_and!; [done| |apply NoDup_singleton].
        intros i Hi ->%list_elem_of_singleton. by eapply Hfresh.
    + split; [by intros _ rnd' _ ?|]. intros _.
      destruct (editId st) as [e|]; [|done].
      destruct (emptyStr e); [done|]. simpl.
      rewrite map_id_same; [done|]. intros k. by destruct (decide _).
  - split; [by intros _ rnd [=]|]. intros _.
    rewrite map_id_same; [done|]. intros k. by destruct (decide _).
  - split; [by intros _ rnd [=]|]. intros _. by apply (bool_decide_unpack _).
Qed.

Lemma ids_stay_distinct_witness :
  NoDup (List.map Child.id
           (kids (handle (setChildForm (openAddChild seedApp) filledForm)
                         (EvSaveChild (js "a3f"))))).
Proof.
  apply (ids_stay_distinct (setChildForm (openAddChild seedApp) filledForm)
           (EvSaveChild (js "a3f"))).
  - by apply (bool_decide_unpack _).
  - intros rnd [= <-] _ _ _ _. by apply (bool_decide_unpack _).
Defined.

(** X26. In a session that starts without a stored snapshot, after any
    sequence of events: every record has the shape the transitions
    write, every child of the roster has trimmed non-empty names and
    guardian, and every row of the report has minutes that are not
    negative and a day count between 0 and the number of days. *)
Theorem firstVisit_session (dKey : jsstring) (es : list Event) :
  let st := run (mount dKey None) es in
  allRecords sessionRecord (attendance st)
  ∧ Forall savedShape (kids st)
  ∧ ∀ r, r ∈ reportRows (kids st) (attendance st) →
         0 <= Row.minutes r ∧ 0 <= Row.days r <= Z.of_nat (size (attendance st)).
Proof.
  intros st.
  assert (allRecords sessionRecord (attendance st) ∧ Forall savedShape (kids st))
    as [Hrec Hshape].
  { unfold st. induction es as [|e es [IH1 IH2]] using rev_ind.
    - split.
      + intros d c a. unfold recordAt, run. simpl.
        destruct (decide (d = dKey)) as [->|Hd].
        * rewrite lookup_singleton_eq. simpl. by rewrite lookup_empty.
        * by rewrite lookup_singleton_ne.
      + unfold run. simpl.
        assert (savedShape hannah ∧ savedShape morgan) as [Hh Hm].
        { split; (split_and!; [reflexivity | discriminate | reflexivity
                               | discriminate | reflexivity | discriminate
                               | by eexists]). }
        exact (Forall_cons_2 _ _ _ Hh (Forall_cons_2 _ _ _ Hm (Forall_nil_2 _))).
    - rewrite run_snoc. split;
        [by apply handle_sessionRecords | by apply handle_savedShape]. }
  split_and!; [done|done|].
  intros r (k & Hk & ->)%elem_of_reportRows. rewrite rowOf_totals. simpl.
  unfold spec_days, spec_minutes. split.
  - apply sumZ_nonneg, Forall_forall.
    intros z (a & <- & Ha%list_elem_of_In)%list_elem_of_In%in_map_iff.
    apply elem_of_recordsOf in Ha as [d Ha]. apply Hrec in Ha.
    unfold minsOf. destruct (Attendance.totalMinutes a) as [m|] eqn:Hm; [|done].
    by eapply sessionRecord_total_nonneg.
  - pose proof (countIf_bounds countsAsPresent
                  (recordsOf (attendance st) (Child.id k))) as Hb.
    assert (length (recordsOf (attendance st) (Child.id k))
            <= size (attendance st))%nat.
    { unfold recordsOf. etrans; [apply length_omap_le|].
      by rewrite length_fmap, length_map_to_list. }
    lia.
Qed.

Lemma firstVisit_session_witness :
  0 <= 30 ∧ 0 <= 1 <= Z.of_nat (size (attendance
      (run (mount (js "2024-03-04") None)
           [EvCheckIn 1709539200000 (js "k1") [];
            EvCheckOut 1709541000000 (js "k1") []]))).
Proof.
  destruct (firstVisit_session (js "2024-03-04")
              [EvCheckIn 1709539200000 (js "k1") [];
               EvCheckOut 1709541000000 (js "k1") []]) as (_ & _ & Hrows).
  apply (Hrows (Row.mk (js "k1") (js "Hannah C.") 1 30 true)).
  vm_compute. constructor.
Defined.
